(** * OVH server sniper front end: availability labels, configuration
      confirmation and purchase-queue submission

    A shallow embedding of the logic inside
    [src/components/servers/ServerCard.tsx] (the [ServerCard] React component)
    and of the form schema [taskFormSchema] of the add-task form, followed by
    the properties established about them.

    Conventions of the embedding.
    - A JavaScript string is a [string]: the sequence of its bytes in UTF-8.
      Every needle the code searches for ('out', 'high', digits, 'h') is
      ASCII, and an ASCII byte never occurs inside a multi-byte UTF-8
      sequence, so substring tests and the digit scan agree with the ones on
      UTF-16 code units.
    - A React state variable is a field of [CardState]; a handler is a
      function from the state it was rendered with to the state after all of
      its [setX] calls, run to completion (the [await]s inside a handler are
      resolved by an oracle argument; no other handler interleaves).
    - What a handler does to the outside (toasts, [localStorage],
      [apiService.createTask] requests, navigation) is recorded in [World].
    - A promise that rejects, and an exception thrown inside [try], are the
      [Rejected] / [None] results of the oracle concerned; [catch] is the
      corresponding branch of a [match]. *)

From Stdlib Require Import ZArith NArith QArith Ascii String List Bool Lia.
From Stdlib Require Import Sorted Permutation.
From stdpp Require Import gmap strings list pretty.

Close Scope Q_scope.
Open Scope string_scope.

(** ** JavaScript string primitives used by the component *)

Module Js.

(** [String.prototype.includes]: [needle] occurs in [s] at some position. *)
Fixpoint includes (s needle : string) : bool :=
  String.prefix needle s ||
  match s with
  | EmptyString => false
  | String _ rest => includes rest needle
  end.

(** [toLowerCase] on one byte: only A-Z change.  Outside ASCII the only
    characters whose lower case reaches ASCII are U+212A (to 'k') and U+0130
    (to 'i' followed by U+0307); neither can create or destroy an occurrence
    of 'high' or 'low', the only needles searched in a lower-cased string. *)
Definition lowerAscii (c : ascii) : ascii :=
  let n := nat_of_ascii c in
  if Nat.leb 65 n && Nat.leb n 90 then ascii_of_nat (n + 32) else c.

Fixpoint toLowerCase (s : string) : string :=
  match s with
  | EmptyString => EmptyString
  | String c rest => String (lowerAscii c) (toLowerCase rest)
  end.

(** The regular-expression class [\d]: the ten ASCII digits. *)
Definition isDigit (c : ascii) : bool :=
  let n := nat_of_ascii c in Nat.leb 48 n && Nat.leb n 57.

(** Truthiness of a value of type [string | null | undefined]. *)
Definition truthy (v : option string) : bool :=
  match v with
  | Some (String _ _) => true
  | _ => false
  end.

(** Greedy [\d+] from the start of [s]: the longest run of digits and what
    follows it. *)
Fixpoint digitsPrefix (s : string) : string * string :=
  match s with
  | EmptyString => (EmptyString, EmptyString)
  | String c rest =>
      if isDigit c
      then let (ds, tl) := digitsPrefix rest in (String c ds, tl)
      else (EmptyString, s)
  end.

(** The literal after the group: [h] under the [i] flag matches 'h' and 'H';
    the second expression has a plain [H]. *)
Definition matchesLetter (ignoreCase : bool) (c : ascii) : bool :=
  if ignoreCase
  then (Ascii.eqb c "h" || Ascii.eqb c "H")%char
  else Ascii.eqb c "H"%char.

(** One attempt of [(\d+)h] anchored at the start of [s].  The group is
    greedy; giving digits back cannot help, because the character after a
    shorter group is a digit, never the letter.  The result is group 1. *)
Definition matchAt (ignoreCase : bool) (s : string) : option string :=
  match digitsPrefix s with
  | (String d ds, String c _) =>
      if matchesLetter ignoreCase c then Some (String d ds) else None
  | _ => None
  end.

(** [RegExp.prototype.exec] without the [g] flag: the attempt is made at
    position 0, 1, 2, ... and the first success wins. *)
Fixpoint exec (ignoreCase : bool) (s : string) : option string :=
  match s with
  | EmptyString => None
  | String _ rest =>
      match matchAt ignoreCase s with
      | Some group1 => Some group1
      | None => exec ignoreCase rest
      end
  end.

Definition digitValue (c : ascii) : N := N.of_nat (nat_of_ascii c - 48).

(** [parseInt] on a string made of decimal digits only (what group 1 always
    is).  The code compares the result with 1 and 24; the IEEE rounding of a
    long digit string is monotone and 1 and 24 are exact, so the comparisons
    on the exact value decide the same way. *)
Definition parseInt (digits : string) : N :=
  fold_left (fun acc c => (acc * 10 + digitValue c)%N)
            (list_ascii_of_string digits) 0%N.

End Js.

(** ** [getAvailabilityInfo] *)

Inductive Availability := unknown | unavailable | available | soon.

(** The icons of the component, by element and colour class. *)
Inductive Icon :=
| ClockMuted          (* <Clock ... text-muted-foreground> *)
| XCircleRed          (* <XCircle ... text-tech-red> *)
| CheckCircleGreen    (* <CheckCircle ... text-tech-green> *)
| AlertCircleYellow.  (* <AlertCircle ... text-tech-yellow> *)

Record AvailabilityInfo := {
  availability : Availability;
  icon : Icon;
  label : string
}.

(** [/(\d+)h/i.exec(availability) || /(\d+)H/.exec(availability)], then
    [hourMatch ? hourMatch[1] : null]. *)
Definition hourMatch (raw : string) : option string :=
  match Js.exec true raw with
  | Some group1 => Some group1
  | None => Js.exec false raw
  end.

(** The part of [getAvailabilityInfo] that follows the lookup
    [const availability = serverAvailability[dcIdLowerCase]]: the raw provider
    string, or [None] when the datacenter has no entry. *)
Definition resolve (raw : option string) : AvailabilityInfo :=
  match raw with
  | None => {| availability := unknown; icon := ClockMuted; label := "未知" |}
  | Some a =>
    if negb (Js.truthy (Some a)) || String.eqb a "unknown" then
      {| availability := unknown; icon := ClockMuted; label := "未知" |}
    else if String.eqb a "unavailable" then
      {| availability := unavailable; icon := XCircleRed; label := "无货" |}
    else if Js.includes a "unavailable" || Js.includes a "out"
            || Js.includes a "none" then
      {| availability := unavailable; icon := XCircleRed; label := "无货" |}
    else
      let hours := hourMatch a in
      let hasHighStock := Js.includes (Js.toLowerCase a) "high" in
      let hasLowStock := Js.includes (Js.toLowerCase a) "low" in
      match hours with
      | Some hours =>
          if (Js.parseInt hours <=? 1)%N then
            {| availability := available; icon := CheckCircleGreen;
               label := if hasLowStock
                        then hours +:+ "小时内(库存有限)"
                        else hours +:+ "小时内(可用)" |}
          else if (Js.parseInt hours <=? 24)%N then
            {| availability := soon; icon := AlertCircleYellow;
               label := hours +:+ "小时内可用" |}
          else
            {| availability := soon; icon := AlertCircleYellow;
               label := hours +:+ "小时内可用" |}
      | None =>
          if hasHighStock then
            {| availability := available; icon := CheckCircleGreen;
               label := "库存充足" |}
          else if hasLowStock then
            {| availability := soon; icon := AlertCircleYellow;
               label := "库存有限" |}
          else if String.eqb a "available" then
            {| availability := available; icon := CheckCircleGreen;
               label := "有货" |}
          else
            {| availability := available; icon := CheckCircleGreen;
               label := a |}
      end
  end.

(** [getAvailabilityInfo(datacenterId)] for the card of plan [planCode]:
    [datacenterAvailability] maps a plan code to the raw strings of its
    datacenters, keyed by lower-case datacenter id.

    The two reads [obj[key]] are modelled as reads of own properties, and
    [toLowerCase] as the folding of A-Z.  That is the code's behaviour for
    ASCII datacenter ids and for keys that do not name a member inherited
    from [Object.prototype] ([OwnPropertyKey] below); with an inherited
    member in the way ('constructor', 'toString', ...) the code reads a
    function instead of a string, and outside ASCII its lower case can differ
    from the model's.  Statements about this function are made on that
    domain. *)
Definition getAvailabilityInfo
    (datacenterAvailability : gmap string (gmap string string))
    (planCode datacenterId : string) : AvailabilityInfo :=
  let dcIdLowerCase := Js.toLowerCase datacenterId in
  match datacenterAvailability !! planCode with
  | None => {| availability := unknown; icon := ClockMuted; label := "未检查" |}
  | Some serverAvailability => resolve (serverAvailability !! dcIdLowerCase)
  end.

(** ** Data of the card *)

(** An entry of [server.memoryOptions] and the like, as the component reads
    it: [option.code] and [option.formatted]. *)
Record ServerOption := {
  code : string;
  formatted : string
}.

(** The fields of [FormattedServer] the modelled code reads.  An absent
    option list and an empty one take the same branch everywhere
    ([server.xOptions && server.xOptions.length > 0]); both are [[]]. *)
Record FormattedServer := {
  planCode : string;
  name : string;
  memory : string;
  storage : string;
  bandwidth : string;
  vrack : string;
  memoryOptions : list ServerOption;
  storageOptions : list ServerOption;
  bandwidthOptions : list ServerOption;
  vrackOptions : list ServerOption
}.

(** An element of the array built by [getSelectedOptions]. *)
Record SelectedOption := {
  optLabel : string;   (* label: 'memory' | 'storage' | 'bandwidth' | 'vrack' *)
  optValue : string    (* value: the option code *)
}.

(** The object literal sent to [apiService.createTask]. *)
Record ServerConfig := {
  cfgName : string;
  cfgPlanCode : string;
  cfgOptions : list SelectedOption;
  cfgDuration : string;
  cfgDatacenter : string;
  cfgQuantity : Z;
  cfgOs : string;
  cfgMaxRetries : Z;
  cfgTaskInterval : Z
}.

Inductive ToastVariant := VariantDefault | VariantDestructive.

Record Toast := {
  title : string;
  description : string;
  variant : option ToastVariant   (* [None]: the call passes no variant *)
}.

(** One family of the object stored under [confirmedConfig_<planCode>]. *)
Record SavedEntry := {
  savedCode : option string;     (* code: selectedX, possibly null *)
  savedDisplay : string          (* display: displayedX *)
}.

(** The stored object.  A family is [None] when its property is missing or
    falsy, which is what [if (savedConfig.memory)] tests. *)
Record SavedConfig := {
  savedMemory : option SavedEntry;
  savedStorage : option SavedEntry;
  savedBandwidth : option SavedEntry;
  savedVrack : option SavedEntry
}.

(** The [useState] variables of the component that the handlers below read or
    write. *)
Record CardState := {
  isChecking : bool;
  isAddingToQueue : bool;
  selectedMemory : option string;
  selectedStorage : option string;
  selectedBandwidth : option string;
  selectedVrack : option string;
  displayedMemory : string;
  displayedStorage : string;
  displayedBandwidth : string;
  displayedVrack : string;
  configChanged : bool;
  configConfirmed : bool;
  selectedDatacenters : list string
}.

(** What the handlers do outside the component, oldest first. *)
Record World := {
  localStorage : gmap string string;
  toasts : list Toast;
  checkCalls : list (string * option (list SelectedOption));
                                         (* onCheckAvailability(planCode, options?) *)
  createTaskCalls : list ServerConfig;   (* apiService.createTask(serverConfig) *)
  invalidatedQueries : list string;      (* queryClient.invalidateQueries *)
  navigations : list string              (* navigate(path) *)
}.

(** Result of awaiting a promise of an external collaborator. *)
Inductive Settled := Resolved | Rejected.

(** *** State setters *)

Definition setIsChecking (v : bool) (st : CardState) : CardState :=
  {| isChecking := v; isAddingToQueue := isAddingToQueue st;
     selectedMemory := selectedMemory st; selectedStorage := selectedStorage st;
     selectedBandwidth := selectedBandwidth st; selectedVrack := selectedVrack st;
     displayedMemory := displayedMemory st; displayedStorage := displayedStorage st;
     displayedBandwidth := displayedBandwidth st; displayedVrack := displayedVrack st;
     configChanged := configChanged st; configConfirmed := configConfirmed st;
     selectedDatacenters := selectedDatacenters st |}.

Definition setIsAddingToQueue (v : bool) (st : CardState) : CardState :=
  {| isChecking := isChecking st; isAddingToQueue := v;
     selectedMemory := selectedMemory st; selectedStorage := selectedStorage st;
     selectedBandwidth := selectedBandwidth st; selectedVrack := selectedVrack st;
     displayedMemory := displayedMemory st; displayedStorage := displayedStorage st;
     displayedBandwidth := displayedBandwidth st; displayedVrack := displayedVrack st;
     configChanged := configChanged st; configConfirmed := configConfirmed st;
     selectedDatacenters := selectedDatacenters st |}.

Definition setSelectedMemory (v : option string) (st : CardState) : CardState :=
  {| isChecking := isChecking st; isAddingToQueue := isAddingToQueue st;
     selectedMemory := v; selectedStorage := selectedStorage st;
     selectedBandwidth := selectedBandwidth st; selectedVrack := selectedVrack st;
     displayedMemory := displayedMemory st; displayedStorage := displayedStorage st;
     displayedBandwidth := displayedBandwidth st; displayedVrack := displayedVrack st;
     configChanged := configChanged st; configConfirmed := configConfirmed st;
     selectedDatacenters := selectedDatacenters st |}.

Definition setSelectedStorage (v : option string) (st : CardState) : CardState :=
  {| isChecking := isChecking st; isAddingToQueue := isAddingToQueue st;
     selectedMemory := selectedMemory st; selectedStorage := v;
     selectedBandwidth := selectedBandwidth st; selectedVrack := selectedVrack st;
     displayedMemory := displayedMemory st; displayedStorage := displayedStorage st;
     displayedBandwidth := displayedBandwidth st; displayedVrack := displayedVrack st;
     configChanged := configChanged st; configConfirmed := configConfirmed st;
     selectedDatacenters := selectedDatacenters st |}.

Definition setSelectedBandwidth (v : option string) (st : CardState) : CardState :=
  {| isChecking := isChecking st; isAddingToQueue := isAddingToQueue st;
     selectedMemory := selectedMemory st; selectedStorage := selectedStorage st;
     selectedBandwidth := v; selectedVrack := selectedVrack st;
     displayedMemory := displayedMemory st; displayedStorage := displayedStorage st;
     displayedBandwidth := displayedBandwidth st; displayedVrack := displayedVrack st;
     configChanged := configChanged st; configConfirmed := configConfirmed st;
     selectedDatacenters := selectedDatacenters st |}.

Definition setSelectedVrack (v : option string) (st : CardState) : CardState :=
  {| isChecking := isChecking st; isAddingToQueue := isAddingToQueue st;
     selectedMemory := selectedMemory st; selectedStorage := selectedStorage st;
     selectedBandwidth := selectedBandwidth st; selectedVrack := v;
     displayedMemory := displayedMemory st; displayedStorage := displayedStorage st;
     displayedBandwidth := displayedBandwidth st; displayedVrack := displayedVrack st;
     configChanged := configChanged st; configConfirmed := configConfirmed st;
     selectedDatacenters := selectedDatacenters st |}.

Definition setDisplayedMemory (v : string) (st : CardState) : CardState :=
  {| isChecking := isChecking st; isAddingToQueue := isAddingToQueue st;
     selectedMemory := selectedMemory st; selectedStorage := selectedStorage st;
     selectedBandwidth := selectedBandwidth st; selectedVrack := selectedVrack st;
     displayedMemory := v; displayedStorage := displayedStorage st;
     displayedBandwidth := displayedBandwidth st; displayedVrack := displayedVrack st;
     configChanged := configChanged st; configConfirmed := configConfirmed st;
     selectedDatacenters := selectedDatacenters st |}.

Definition setDisplayedStorage (v : string) (st : CardState) : CardState :=
  {| isChecking := isChecking st; isAddingToQueue := isAddingToQueue st;
     selectedMemory := selectedMemory st; selectedStorage := selectedStorage st;
     selectedBandwidth := selectedBandwidth st; selectedVrack := selectedVrack st;
     displayedMemory := displayedMemory st; displayedStorage := v;
     displayedBandwidth := displayedBandwidth st; displayedVrack := displayedVrack st;
     configChanged := configChanged st; configConfirmed := configConfirmed st;
     selectedDatacenters := selectedDatacenters st |}.

Definition setDisplayedBandwidth (v : string) (st : CardState) : CardState :=
  {| isChecking := isChecking st; isAddingToQueue := isAddingToQueue st;
     selectedMemory := selectedMemory st; selectedStorage := selectedStorage st;
     selectedBandwidth := selectedBandwidth st; selectedVrack := selectedVrack st;
     displayedMemory := displayedMemory st; displayedStorage := displayedStorage st;
     displayedBandwidth := v; displayedVrack := displayedVrack st;
     configChanged := configChanged st; configConfirmed := configConfirmed st;
     selectedDatacenters := selectedDatacenters st |}.

Definition setDisplayedVrack (v : string) (st : CardState) : CardState :=
  {| isChecking := isChecking st; isAddingToQueue := isAddingToQueue st;
     selectedMemory := selectedMemory st; selectedStorage := selectedStorage st;
     selectedBandwidth := selectedBandwidth st; selectedVrack := selectedVrack st;
     displayedMemory := displayedMemory st; displayedStorage := displayedStorage st;
     displayedBandwidth := displayedBandwidth st; displayedVrack := v;
     configChanged := configChanged st; configConfirmed := configConfirmed st;
     selectedDatacenters := selectedDatacenters st |}.

Definition setConfigChanged (v : bool) (st : CardState) : CardState :=
  {| isChecking := isChecking st; isAddingToQueue := isAddingToQueue st;
     selectedMemory := selectedMemory st; selectedStorage := selectedStorage st;
     selectedBandwidth := selectedBandwidth st; selectedVrack := selectedVrack st;
     displayedMemory := displayedMemory st; displayedStorage := displayedStorage st;
     displayedBandwidth := displayedBandwidth st; displayedVrack := displayedVrack st;
     configChanged := v; configConfirmed := configConfirmed st;
     selectedDatacenters := selectedDatacenters st |}.

Definition setConfigConfirmed (v : bool) (st : CardState) : CardState :=
  {| isChecking := isChecking st; isAddingToQueue := isAddingToQueue st;
     selectedMemory := selectedMemory st; selectedStorage := selectedStorage st;
     selectedBandwidth := selectedBandwidth st; selectedVrack := selectedVrack st;
     displayedMemory := displayedMemory st; displayedStorage := displayedStorage st;
     displayedBandwidth := displayedBandwidth st; displayedVrack := displayedVrack st;
     configChanged := configChanged st; configConfirmed := v;
     selectedDatacenters := selectedDatacenters st |}.

Definition setSelectedDatacenters (v : list string) (st : CardState) : CardState :=
  {| isChecking := isChecking st; isAddingToQueue := isAddingToQueue st;
     selectedMemory := selectedMemory st; selectedStorage := selectedStorage st;
     selectedBandwidth := selectedBandwidth st; selectedVrack := selectedVrack st;
     displayedMemory := displayedMemory st; displayedStorage := displayedStorage st;
     displayedBandwidth := displayedBandwidth st; displayedVrack := displayedVrack st;
     configChanged := configChanged st; configConfirmed := configConfirmed st;
     selectedDatacenters := v |}.

Definition pushToast (t : Toast) (w : World) : World :=
  {| localStorage := localStorage w; toasts := toasts w ++ [t];
     checkCalls := checkCalls w; createTaskCalls := createTaskCalls w;
     invalidatedQueries := invalidatedQueries w; navigations := navigations w |}.

Definition setItem (key value : string) (w : World) : World :=
  {| localStorage := <[key := value]> (localStorage w); toasts := toasts w;
     checkCalls := checkCalls w; createTaskCalls := createTaskCalls w;
     invalidatedQueries := invalidatedQueries w; navigations := navigations w |}.

Definition recordCreateTask (cfg : ServerConfig) (w : World) : World :=
  {| localStorage := localStorage w; toasts := toasts w;
     checkCalls := checkCalls w; createTaskCalls := createTaskCalls w ++ [cfg];
     invalidatedQueries := invalidatedQueries w; navigations := navigations w |}.

Definition invalidateQueries (queryKey : string) (w : World) : World :=
  {| localStorage := localStorage w; toasts := toasts w;
     checkCalls := checkCalls w; createTaskCalls := createTaskCalls w;
     invalidatedQueries := invalidatedQueries w ++ [queryKey];
     navigations := navigations w |}.

Definition navigate (path : string) (w : World) : World :=
  {| localStorage := localStorage w; toasts := toasts w;
     checkCalls := checkCalls w; createTaskCalls := createTaskCalls w;
     invalidatedQueries := invalidatedQueries w;
     navigations := navigations w ++ [path] |}.

Definition recordCheck (planCode : string) (options : option (list SelectedOption))
    (w : World) : World :=
  {| localStorage := localStorage w; toasts := toasts w;
     checkCalls := checkCalls w ++ [(planCode, options)];
     createTaskCalls := createTaskCalls w;
     invalidatedQueries := invalidatedQueries w; navigations := navigations w |}.

(** ** The component *)

Inductive ConfirmationState := Default | Modified | Confirmed.

Section ServerCard.

(** The [server] prop of the card. *)
Variable server : FormattedServer.

(** [JSON.parse] on the stored snapshot, read at the type the component reads
    it ([SavedConfig]).  [None]: the [try] block throws before any setter
    runs (a [SyntaxError] for text that is not JSON, or the property access on
    a parsed [null]). *)
Variable JSON_parse : string -> option SavedConfig.

(** [JSON.stringify] on the snapshot object. *)
Variable JSON_stringify : SavedConfig -> string.

Definition confirmedConfigKey : string := "confirmedConfig_" +:+ planCode server.

(** The [useState] initial values. *)
Definition initialState : CardState :=
  {| isChecking := false; isAddingToQueue := false;
     selectedMemory := None; selectedStorage := None;
     selectedBandwidth := None; selectedVrack := None;
     displayedMemory := memory server; displayedStorage := storage server;
     displayedBandwidth := bandwidth server; displayedVrack := vrack server;
     configChanged := false; configConfirmed := false;
     selectedDatacenters := [] |}.

(** [options.find(opt => opt.formatted === current)]. *)
Definition findDefaultOption (options : list ServerOption) (current : string)
  : option ServerOption :=
  List.find (fun opt => String.eqb (formatted opt) current) options.

(** [if (savedConfig.x) { setSelectedX(savedConfig.x.code);
    setDisplayedX(savedConfig.x.display); }] *)
Definition restoreFamily
    (setSelected : option string -> CardState -> CardState)
    (setDisplayed : string -> CardState -> CardState)
    (entry : option SavedEntry) (st : CardState) : CardState :=
  match entry with
  | Some e => setDisplayed (savedDisplay e) (setSelected (savedCode e) st)
  | None => st
  end.

(** The body of the [try] after a successful parse. *)
Definition restoreSavedConfig (savedConfig : SavedConfig) (st : CardState)
  : CardState :=
  let st := restoreFamily setSelectedMemory setDisplayedMemory
              (savedMemory savedConfig) st in
  let st := restoreFamily setSelectedStorage setDisplayedStorage
              (savedStorage savedConfig) st in
  let st := restoreFamily setSelectedBandwidth setDisplayedBandwidth
              (savedBandwidth savedConfig) st in
  let st := restoreFamily setSelectedVrack setDisplayedVrack
              (savedVrack savedConfig) st in
  setConfigChanged false (setConfigConfirmed true st).

(** [if (options && options.length > 0) { const d = find(...);
    if (d) setSelectedX(d.code); }] *)
Definition selectDefault
    (setSelected : option string -> CardState -> CardState)
    (options : list ServerOption) (current : string) (st : CardState)
  : CardState :=
  if Nat.ltb 0 (length options) then
    match findDefaultOption options current with
    | Some defaultOption => setSelected (Some (code defaultOption)) st
    | None => st
    end
  else st.

(** The default selections, used when nothing was saved or the restore
    failed. *)
Definition selectDefaults (st : CardState) : CardState :=
  let st := selectDefault setSelectedMemory (memoryOptions server)
              (memory server) st in
  let st := selectDefault setSelectedStorage (storageOptions server)
              (storage server) st in
  let st := selectDefault setSelectedBandwidth (bandwidthOptions server)
              (bandwidth server) st in
  if Nat.ltb 0 (length (vrackOptions server)) then
    match findDefaultOption (vrackOptions server) (vrack server) with
    | Some defaultOption => setSelectedVrack (Some (code defaultOption)) st
    | None => setDisplayedVrack "无vRack" st
    end
  else setDisplayedVrack "无vRack" st.

(** The first [useEffect]: restore the confirmed configuration stored for
    this plan, else select the defaults.  [storage !! key] is
    [localStorage.getItem(key)]. *)
Definition restoreEffect (storage : gmap string string) (st : CardState)
  : CardState :=
  let savedConfigStr := storage !! confirmedConfigKey in
  if Js.truthy savedConfigStr then
    match savedConfigStr ≫= JSON_parse with
    | Some savedConfig => restoreSavedConfig savedConfig st
    | None => selectDefaults st          (* catch (e): log, fall through *)
    end
  else selectDefaults st.

(** The state of the card once mounted. *)
Definition mount (storage : gmap string string) : CardState :=
  restoreEffect storage initialState.

(** [getSelectedOptions]. *)
Definition getSelectedOptions (st : CardState) : list SelectedOption :=
  let push (family : string) (selected : option string) :=
    match selected with
    | Some (String c rest) =>
        [ {| optLabel := family; optValue := String c rest |} ]
    | _ => []
    end in
  push "memory" (selectedMemory st) ++ push "storage" (selectedStorage st)
  ++ push "bandwidth" (selectedBandwidth st) ++ push "vrack" (selectedVrack st).

(** [selectedX !== optionCode]. *)
Definition differs (selected : option string) (optionCode : string) : bool :=
  negb (bool_decide (selected = Some optionCode)).

(** [handleSelectOption]; the first component is the local [isRealChange]. *)
Definition handleSelectOption (family optionCode displayText : string)
    (st : CardState) : bool * CardState :=
  let '(isRealChange, st1) :=
    if String.eqb family "memory" then
      (differs (selectedMemory st) optionCode,
       setDisplayedMemory displayText (setSelectedMemory (Some optionCode) st))
    else if String.eqb family "storage" then
      (differs (selectedStorage st) optionCode,
       setDisplayedStorage displayText (setSelectedStorage (Some optionCode) st))
    else if String.eqb family "bandwidth" then
      (differs (selectedBandwidth st) optionCode,
       setDisplayedBandwidth displayText
         (setSelectedBandwidth (Some optionCode) st))
    else if String.eqb family "vrack" then
      (differs (selectedVrack st) optionCode,
       setDisplayedVrack displayText (setSelectedVrack (Some optionCode) st))
    else (false, st) in
  if isRealChange
  then (isRealChange, setConfigChanged true st1)
  else (isRealChange, st1).

(** The snapshot object built by [handleCheckConfigAvailability]. *)
Definition confirmedConfig (st : CardState) : SavedConfig :=
  {| savedMemory := Some {| savedCode := selectedMemory st;
                            savedDisplay := displayedMemory st |};
     savedStorage := Some {| savedCode := selectedStorage st;
                             savedDisplay := displayedStorage st |};
     savedBandwidth := Some {| savedCode := selectedBandwidth st;
                               savedDisplay := displayedBandwidth st |};
     savedVrack := Some {| savedCode := selectedVrack st;
                           savedDisplay := displayedVrack st |} |}.

(** [handleCheckConfigAvailability]; [checkResult] is how the promise of
    [onCheckAvailability(server.planCode, options)] settles. *)
Definition handleCheckConfigAvailability (checkResult : Settled)
    (st : CardState) (w : World) : CardState * World :=
  let st1 := setIsChecking true st in
  let options := getSelectedOptions st in
  let w1 := recordCheck (planCode server) (Some options) w in
  let '(st2, w2) :=
    match checkResult with
    | Resolved =>
        let st' := setConfigChanged false (setConfigConfirmed true st1) in
        let w' := setItem confirmedConfigKey
                    (JSON_stringify (confirmedConfig st)) w1 in
        (st', pushToast {| title := "整体配置已确认";
                           description := "您选择的所有配置项已确认，可以添加到抢购队列";
                           variant := Some VariantDefault |} w')
    | Rejected =>
        (st1, pushToast {| title := "检查失败";
                           description := "无法检查所选配置可用性，请重试";
                           variant := Some VariantDestructive |} w1)
    end in
  (setIsChecking false st2, w2).

(** [handleCheckDefaultAvailability]: the check carries no options. *)
Definition handleCheckDefaultAvailability (checkResult : Settled)
    (st : CardState) (w : World) : CardState * World :=
  let st1 := setIsChecking true st in
  let w1 := recordCheck (planCode server) None w in
  let '(st2, w2) :=
    match checkResult with
    | Resolved =>
        (setConfigConfirmed true st1,
         pushToast {| title := "默认配置已确认";
                      description := "默认配置已确认，可以添加到抢购队列";
                      variant := Some VariantDefault |} w1)
    | Rejected => (st1, w1)              (* catch: console.error only *)
    end in
  (setIsChecking false st2, w2).

(** [toggleDatacenter]. *)
Definition toggleDatacenter (datacenterId : string) (st : CardState)
  : CardState :=
  let prev := selectedDatacenters st in
  setSelectedDatacenters
    (if existsb (String.eqb datacenterId) prev
     then List.filter (fun id => negb (String.eqb id datacenterId)) prev
     else prev ++ [datacenterId])
    st.

(** The object literal built for one datacenter inside the loop. *)
Definition serverConfigFor (frontendOptions : list SelectedOption)
    (datacenterId : string) : ServerConfig :=
  {| cfgName := name server +:+ " (" +:+ datacenterId +:+ ")";
     cfgPlanCode := planCode server;
     cfgOptions := frontendOptions;
     cfgDuration := "P1M";
     cfgDatacenter := datacenterId;
     cfgQuantity := 1;
     cfgOs := "none_64.en";
     cfgMaxRetries := -1;
     cfgTaskInterval := 60 |}.

(** The [for ... of selectedDatacenters] loop: build, send, await.  A
    rejected [createTask] leaves the loop (the surrounding [try] has the only
    [catch]). *)
Fixpoint createTasks (createTask : ServerConfig -> Settled)
    (frontendOptions : list SelectedOption) (datacenters : list string)
    (w : World) : Settled * World :=
  match datacenters with
  | [] => (Resolved, w)
  | datacenterId :: rest =>
      let serverConfig := serverConfigFor frontendOptions datacenterId in
      let w1 := recordCreateTask serverConfig w in
      match createTask serverConfig with
      | Resolved => createTasks createTask frontendOptions rest w1
      | Rejected => (Rejected, w1)
      end
  end.

(** [handleAddToQueue]; [createTask] tells how the request for each
    configuration settles. *)
Definition handleAddToQueue (createTask : ServerConfig -> Settled)
    (st : CardState) (w : World) : CardState * World :=
  let st1 := setIsAddingToQueue true st in
  if Nat.eqb (length (selectedDatacenters st)) 0 then
    (* toast, setIsAddingToQueue(false), return; then finally *)
    (setIsAddingToQueue false (setIsAddingToQueue false st1),
     pushToast {| title := "未选择数据中心";
                  description := "请至少选择一个数据中心添加到抢购队列";
                  variant := Some VariantDestructive |} w)
  else
    let w1 := pushToast {| title := "正在添加...";
                           description := "正在将 " +:+ name server
                                          +:+ " 添加到抢购队列";
                           variant := None |} w in
    let frontendOptions := getSelectedOptions st in
    match createTasks createTask frontendOptions (selectedDatacenters st) w1 with
    | (Resolved, w2) =>
        let w3 := invalidateQueries "tasks" w2 in
        let w4 := pushToast
                    {| title := "添加成功";
                       description :=
                         "已将 " +:+ name server +:+ " 添加到抢购队列，共 "
                         +:+ pretty (length (selectedDatacenters st))
                         +:+ " 个数据中心";
                       variant := Some VariantDefault |} w3 in
        (setIsAddingToQueue false (setSelectedDatacenters [] st1),
         navigate "/queue" w4)
    | (Rejected, w2) =>
        (setIsAddingToQueue false st1,
         pushToast {| title := "添加失败";
                      description := "无法将服务器添加到抢购队列，请重试";
                      variant := Some VariantDestructive |} w2)
    end.

(** *** What the rendering derives from the state *)

(** The [disabled] attribute of the add-to-queue button. *)
Definition addToQueueDisabled (st : CardState) : bool :=
  negb (configConfirmed st)
  || Nat.eqb (length (selectedDatacenters st)) 0
  || isAddingToQueue st.

(** The three-way styling of the specification lines
    ([configConfirmed ? green : configChanged ? blue : plain]), read as the
    confirmation state of the card. *)
Definition confirmationState (st : CardState) : ConfirmationState :=
  if configConfirmed st then Confirmed
  else if configChanged st then Modified
  else Default.

(** *** User events *)

Inductive Event :=
| ClickOption (family optionCode displayText : string)
| ClickConfirmConfig (checkResult : Settled)
| ClickConfirmDefault (checkResult : Settled)
| ClickDatacenter (datacenterId : string)
| ClickClearDatacenters
| ClickAddToQueue (createTask : ServerConfig -> Settled).

(** One event on the mounted card.  A click on a disabled button does
    nothing. *)
Definition step (e : Event) (sw : CardState * World) : CardState * World :=
  let '(st, w) := sw in
  match e with
  | ClickOption family optionCode displayText =>
      (snd (handleSelectOption family optionCode displayText st), w)
  | ClickConfirmConfig checkResult =>
      if isChecking st then (st, w)
      else handleCheckConfigAvailability checkResult st w
  | ClickConfirmDefault checkResult =>
      if isChecking st then (st, w)
      else handleCheckDefaultAvailability checkResult st w
  | ClickDatacenter datacenterId => (toggleDatacenter datacenterId st, w)
  | ClickClearDatacenters => (setSelectedDatacenters [] st, w)
  | ClickAddToQueue createTask =>
      if addToQueueDisabled st then (st, w)
      else handleAddToQueue createTask st w
  end.

Definition run (events : list Event) (sw : CardState * World)
  : CardState * World :=
  fold_left (fun acc e => step e acc) events sw.

(** The world a freshly mounted card sees: only the store has content. *)
Definition freshWorld (storage : gmap string string) : World :=
  {| localStorage := storage; toasts := []; checkCalls := [];
     createTaskCalls := []; invalidatedQueries := []; navigations := [] |}.

Inductive reachable : CardState * World -> Prop :=
| reachable_mount (storage : gmap string string) :
    reachable (mount storage, freshWorld storage)
| reachable_step (e : Event) (sw : CardState * World) :
    reachable sw -> reachable (step e sw).

End ServerCard.

(** ** The add-task form: [taskFormSchema]

    The schema is built with the zod library; its combinators are modelled
    by what they report: the list of issues, empty when the value passes. *)

Module TaskForm.

(** A JavaScript number.  Every finite double is a rational. *)
Inductive Number := Finite (q : Q) | PosInfinity | NegInfinity | NaN.

(** A value handed to the schema, as far as the schema tells values apart. *)
Inductive Value :=
| Undefined
| Null
| Boolean (b : bool)
| Str (s : string)
| Num (x : Number)
| Array          (* any array: the element schema is [z.any()] *)
| Object.        (* any other object *)

Inductive IssueCode := invalid_type | too_small | too_big.

(** [Number.isInteger] on a finite number. *)
Definition isInteger (q : Q) : bool :=
  (Qnum q mod Zpos (Qden q) =? 0)%Z.

(** The checks chained on [z.number()]. *)
Inductive NumberCheck :=
| int
| min (bound : Z)     (* inclusive *)
| max (bound : Z).    (* inclusive *)

(** [data < bound] and [data > bound] on JavaScript numbers. *)
Definition ltBound (x : Number) (bound : Z) : bool :=
  match x with
  | Finite q => negb (Qle_bool (inject_Z bound) q)
  | NegInfinity => true
  | PosInfinity | NaN => false
  end.

Definition gtBound (x : Number) (bound : Z) : bool :=
  match x with
  | Finite q => negb (Qle_bool q (inject_Z bound))
  | PosInfinity => true
  | NegInfinity | NaN => false
  end.

Definition runCheck (x : Number) (c : NumberCheck) : list IssueCode :=
  match c with
  | int =>
      match x with
      | Finite q => if isInteger q then [] else [invalid_type]
      | _ => [invalid_type]
      end
  | min bound => if ltBound x bound then [too_small] else []
  | max bound => if gtBound x bound then [too_big] else []
  end.

(** [z.number().check1().check2()...]: a value that is not a number, or is
    NaN, is an [invalid_type] and no check runs; otherwise every check runs
    and the issues add up. *)
Definition zNumber (checks : list NumberCheck) (v : Value) : list IssueCode :=
  match v with
  | Num NaN => [invalid_type]
  | Num x => concat (List.map (runCheck x) checks)
  | _ => [invalid_type]
  end.

(** [z.string().min(n, message)]. *)
Definition zStringMin (n : nat) (v : Value) : list IssueCode :=
  match v with
  | Str s => if Nat.ltb (String.length s) n then [too_small] else []
  | _ => [invalid_type]
  end.

(** [z.string().default(d)]: an absent value takes the default. *)
Definition zStringDefault (v : Value) : list IssueCode :=
  match v with
  | Undefined | Str _ => []
  | _ => [invalid_type]
  end.

(** [z.array(z.any()).optional()]. *)
Definition zArrayAnyOptional (v : Value) : list IssueCode :=
  match v with
  | Undefined | Array => []
  | _ => [invalid_type]
  end.

(** The object given to the schema, by key. *)
Record Input := {
  name : Value;
  planCode : Value;
  datacenter : Value;
  quantity : Value;
  os : Value;
  duration : Value;
  options : Value;
  maxRetries : Value;
  taskInterval : Value
}.

Definition maxRetriesSchema : Value -> list IssueCode :=
  zNumber [int; min (-1); max 100].

Definition taskIntervalSchema : Value -> list IssueCode :=
  zNumber [int; min 5; max 600].

(** The issues of [taskFormSchema.safeParse(input)], in key order. *)
Definition taskFormSchema (input : Input) : list IssueCode :=
  zStringMin 1 (name input)
  ++ zStringMin 1 (planCode input)
  ++ zStringMin 1 (datacenter input)
  ++ zNumber [int; min 1; max 5] (quantity input)
  ++ zStringDefault (os input)
  ++ zStringDefault (duration input)
  ++ zArrayAnyOptional (options input)
  ++ maxRetriesSchema (maxRetries input)
  ++ taskIntervalSchema (taskInterval input).

(** [safeParse(input).success]. *)
Definition accepts (input : Input) : bool :=
  match taskFormSchema input with
  | [] => true
  | _ => false
  end.

Definition integer (z : Z) : Value := Num (Finite (inject_Z z)).

(** The form's [defaultValues] with a name, plan and datacenter filled in. *)
Definition filledForm (retries interval : Value) : Input :=
  {| name := Str "KS-1 (gra)"; planCode := Str "24ska01";
     datacenter := Str "gra"; quantity := integer 1;
     os := Str "none_64.en"; duration := Str "P1M"; options := Array;
     maxRetries := retries; taskInterval := interval |}.

End TaskForm.

(** ** The datacenter grid of the card *)

Section DatacenterGrid.

Variable server : FormattedServer.

(** The [datacenterAvailability] and [checkedServers] props. *)
Variable datacenterAvailability : gmap string (gmap string string).
Variable checkedServers : list string.

(** [const isChecked = checkedServers.includes(server.planCode)]. *)
Definition isChecked : bool :=
  existsb (String.eqb (planCode server)) checkedServers.

(** [hasBeenCheckedAvailability]; the reads are modelled as in
    [getAvailabilityInfo], and faithful on the same domain. *)
Definition hasBeenCheckedAvailability (datacenterId : string) : bool :=
  match datacenterAvailability !! planCode server with
  | None => false
  | Some serverAvailability =>
      let dcIdLowerCase := Js.toLowerCase datacenterId in
      isChecked && Js.truthy (serverAvailability !! dcIdLowerCase)
  end.

(** [info.availability === tag]. *)
Definition availabilityIs (tag a : Availability) : bool :=
  match tag, a with
  | unknown, unknown | unavailable, unavailable
  | available, available | soon, soon => true
  | _, _ => false
  end.

(** The status styling of one tile of the grid. *)
Record TileStatus := {
  statusText : string;
  statusColor : string;
  statusBg : string;
  statusBorder : string
}.

(** The body of [DATACENTERS.map((dc) => ...)] up to the status styling, for
    the tile of datacenter code [dcCode]; [selected] is
    [selectedDatacenters].  (The region colours, which depend on the country
    name of the [DATACENTERS] table only, are left out.) *)
Definition datacenterTile (selected : list string) (dcCode : string)
  : TileStatus :=
  let availInfo :=
    getAvailabilityInfo datacenterAvailability (planCode server) dcCode in
  let isAvailable :=
    availabilityIs available (availability availInfo)
    || availabilityIs soon (availability availInfo) in
  let isUnavailable := availabilityIs unavailable (availability availInfo) in
  let isSelected := existsb (String.eqb dcCode) selected in
  let hasBeenChecked := hasBeenCheckedAvailability dcCode in
  let status :=
    if hasBeenChecked then
      if isAvailable then
        {| statusText := "有货"; statusColor := "text-tech-green";
           statusBg := "bg-tech-green/5";
           statusBorder := "border-tech-green/30" |}
      else if isUnavailable then
        {| statusText := "无货"; statusColor := "text-tech-red";
           statusBg := "bg-tech-red/5"; statusBorder := "border-tech-red/30" |}
      else
        {| statusText := "未知"; statusColor := "text-gray-400";
           statusBg := "bg-gray-500/5"; statusBorder := "border-gray-700" |}
    else
      {| statusText := "未检查"; statusColor := "text-gray-400";
         statusBg := ""; statusBorder := "border-gray-700" |} in
  if isSelected then
    {| statusText := statusText status; statusColor := statusColor status;
       statusBg := "bg-tech-blue/10"; statusBorder := "border-tech-blue" |}
  else status.

End DatacenterGrid.

(** ** The add-task form: option selection *)

Module AddTaskForm.

(** An element of [selectedOptions]: [{ family, option }]. *)
Record AddonOption := {
  family : string;
  optionCode : string     (* the property named option *)
}.

(** An element of [plan.addonFamilies], as far as the form reads it. *)
Record AddonFamily := {
  familyName : string;            (* name *)
  exclusive : option bool         (* exclusive, possibly absent *)
}.

(** A plan of the server catalogue, as far as the form reads it. *)
Record Plan := {
  planCode : string;
  addonFamilies : option (list AddonFamily)
}.

(** [findServerDetails]; [plans] is [serverCatalog?.plans]. *)
Definition findServerDetails (plans : option (list Plan)) (code : string)
  : option Plan :=
  match plans with
  | None => None
  | Some plans => List.find (fun plan => String.eqb (planCode plan) code) plans
  end.

(** [isOptionSelected]. *)
Definition isOptionSelected (selectedOptions : list AddonOption)
    (fam code : string) : bool :=
  existsb (fun opt => String.eqb (family opt) fam
                      && String.eqb (optionCode opt) code) selectedOptions.

(** [selectedServer?.addonFamilies?.find(f => f.name === family)?.exclusive],
    as the condition of [if (isExclusive)]. *)
Definition isExclusive (selectedServer : option Plan) (fam : string) : bool :=
  match selectedServer with
  | None => false
  | Some plan =>
      match addonFamilies plan with
      | None => false
      | Some families =>
          match List.find (fun f => String.eqb (familyName f) fam) families with
          | Some f => match exclusive f with Some true => true | _ => false end
          | None => false
          end
      end
  end.

(** [toggleOption]: the list given to [setSelectedOptions]. *)
Definition toggleOption (selectedServer : option Plan)
    (selectedOptions : list AddonOption) (fam code : string) (checked : bool)
  : list AddonOption :=
  if checked then
    let newOptions :=
      if isExclusive selectedServer fam
      then List.filter (fun opt => negb (String.eqb (family opt) fam))
             selectedOptions
      else selectedOptions in
    newOptions ++ [ {| family := fam; optionCode := code |} ]
  else
    List.filter
      (fun opt => negb (String.eqb (family opt) fam
                        && String.eqb (optionCode opt) code))
      selectedOptions.

End AddTaskForm.

(** A [ServerConfig] object as the value [taskFormSchema] would be given:
    strings and integers at their keys, the options array as an array. *)
Definition serverConfigAsInput (cfg : ServerConfig) : TaskForm.Input :=
  {| TaskForm.name := TaskForm.Str (cfgName cfg);
     TaskForm.planCode := TaskForm.Str (cfgPlanCode cfg);
     TaskForm.datacenter := TaskForm.Str (cfgDatacenter cfg);
     TaskForm.quantity := TaskForm.integer (cfgQuantity cfg);
     TaskForm.os := TaskForm.Str (cfgOs cfg);
     TaskForm.duration := TaskForm.Str (cfgDuration cfg);
     TaskForm.options := TaskForm.Array;
     TaskForm.maxRetries := TaskForm.integer (cfgMaxRetries cfg);
     TaskForm.taskInterval := TaskForm.integer (cfgTaskInterval cfg) |}.

(** ** The recent orders of the dashboard *)

Module RecentOrders.

(** An [OrderHistory] entry, as far as the component reads it. *)
Record OrderHistory := {
  id : string;
  name : string;
  status : string;
  datacenter : string;
  planCode : string;
  orderTime : string;
  orderUrl : option string;
  error : option string
}.

Section Recent.

(** [new Date(orderTime).getTime()], for order times that are valid dates
    (an invalid one gives NaN, and a comparator returning NaN is outside what
    [sort] specifies). *)
Variable getTime : string -> Z.

(** The comparator [(a, b) => getTime(b) - getTime(a)]. *)
Definition compareOrders (a b : OrderHistory) : Z :=
  getTime (orderTime b) - getTime (orderTime a).

(** [Array.prototype.sort] is stable; with a consistent comparator its
    result is the one stably sorted arrangement of the array, computed here by
    insertion from the right: [a] goes before [b] unless the comparator is
    positive. *)
Fixpoint insertOrder (a : OrderHistory) (sorted : list OrderHistory)
  : list OrderHistory :=
  match sorted with
  | [] => [a]
  | b :: rest =>
      if (compareOrders a b <=? 0)%Z then a :: b :: rest
      else b :: insertOrder a rest
  end.

Definition sortOrders (orders : list OrderHistory) : list OrderHistory :=
  fold_right insertOrder [] orders.

(** [[...orders].sort(...).slice(0, 5)]. *)
Definition recentOrders (orders : list OrderHistory) : list OrderHistory :=
  firstn 5 (sortOrders orders).

End Recent.

End RecentOrders.

(** ** A sample card *)

Module Sample.

Definition ks1 : FormattedServer :=
  {| planCode := "24ska01"; name := "ks-1";
     memory := "32 GB"; storage := "2x480 GB SSD";
     bandwidth := "1 Gbps"; vrack := "none";
     memoryOptions := [ {| code := "32g"; formatted := "32 GB" |};
                        {| code := "64g"; formatted := "64 GB" |} ];
     storageOptions := []; bandwidthOptions := []; vrackOptions := [] |}.

Definition entryText (entry : option SavedEntry) : string :=
  match entry with
  | Some e => default "null" (savedCode e) +:+ "/" +:+ savedDisplay e
  | None => "null"
  end.

(** A stand-in for [JSON.stringify] on snapshots; any injective rendering
    would do. *)
Definition stringify (c : SavedConfig) : string :=
  "{" +:+ entryText (savedMemory c) +:+ "," +:+ entryText (savedStorage c)
  +:+ "," +:+ entryText (savedBandwidth c) +:+ "," +:+ entryText (savedVrack c)
  +:+ "}".

(** The snapshot of [ks1] with its default memory option confirmed. *)
Definition ks1Snapshot : SavedConfig :=
  {| savedMemory := Some {| savedCode := Some "32g"; savedDisplay := "32 GB" |};
     savedStorage := Some {| savedCode := None;
                             savedDisplay := "2x480 GB SSD" |};
     savedBandwidth := Some {| savedCode := None; savedDisplay := "1 Gbps" |};
     savedVrack := Some {| savedCode := None; savedDisplay := "无vRack" |} |}.

(** A stand-in for [JSON.parse] on the sample store: it reads back the text
    of [ks1Snapshot] and throws on any other text. *)
Definition parse (text : string) : option SavedConfig :=
  if String.eqb text (stringify ks1Snapshot) then Some ks1Snapshot else None.

(** A store whose entry for [ks1] is not JSON. *)
Definition brokenStore : gmap string string :=
  {[ "confirmedConfig_24ska01" := "{memory:" ]}.

(** [createTask] rejecting the request for one datacenter only. *)
Definition rejectAt (datacenterId : string) (cfg : ServerConfig) : Settled :=
  if String.eqb (cfgDatacenter cfg) datacenterId then Rejected else Resolved.

Definition acceptAll (cfg : ServerConfig) : Settled := Resolved.

(** The card of [ks1] after confirming the default selection and picking
    the datacenters bhs and rbx. *)
Definition confirmedWithTwoDatacenters : CardState * World :=
  run ks1 stringify
    [ ClickConfirmConfig Resolved; ClickDatacenter "bhs"; ClickDatacenter "rbx" ]
    (mount ks1 parse ∅, freshWorld ∅).

End Sample.

(** ** Vocabulary of the statements *)

(** [needle] occurs in [s]. *)
Definition Contains (needle s : string) : Prop :=
  exists pre post, s = pre +:+ needle +:+ post.

(** [needle] (lower case) occurs in [s] in some letter case. *)
Definition ContainsAnyCase (needle s : string) : Prop :=
  Contains needle (Js.toLowerCase s).

Definition AllDigits (ds : string) : Prop :=
  forallb Js.isDigit (list_ascii_of_string ds) = true.

(** [ds] is an hour count of [s] that starts right after [pre]: a non-empty
    run of digits immediately followed by 'h' or 'H'. *)
Definition HourCountAt (pre ds s : string) : Prop :=
  ds <> "" /\ AllDigits ds /\
  exists c post,
    s = pre +:+ ds +:+ String c post /\ (c = "h" \/ c = "H")%char.

Definition HourCount (ds s : string) : Prop := exists pre, HourCountAt pre ds s.

(** [ds] is the hour count of [s] that starts first. *)
Definition FirstHourCount (ds s : string) : Prop :=
  exists pre,
    HourCountAt pre ds s /\
    forall pre' ds', HourCountAt pre' ds' s ->
                     String.length pre <= String.length pre'.

Definition HasHourCount (s : string) : Prop := exists ds, HourCount ds s.

(** None of the three out-of-stock keywords occurs in [s], as written. *)
Definition NoNegativeKeyword (s : string) : Prop :=
  ~ Contains "unavailable" s /\ ~ Contains "out" s /\ ~ Contains "none" s.

(** The property names a plain object inherits from [Object.prototype]
    (the standard members, with those of Annex B). *)
Definition objectPrototypeMembers : list string :=
  [ "constructor"; "hasOwnProperty"; "isPrototypeOf"; "propertyIsEnumerable";
    "toLocaleString"; "toString"; "valueOf"; "__proto__";
    "__defineGetter__"; "__defineSetter__"; "__lookupGetter__";
    "__lookupSetter__" ].

(** A read [obj[key]] of a plain object finds an own property or nothing:
    [key] names no inherited member. *)
Definition OwnPropertyKey (key : string) : Prop :=
  ~ In key objectPrototypeMembers.

(** Every character of [s] is ASCII; there [Js.toLowerCase] is the whole of
    [String.prototype.toLowerCase]. *)
Definition IsAscii (s : string) : Prop :=
  forallb (fun c => Nat.ltb (nat_of_ascii c) 128) (list_ascii_of_string s)
  = true.

(** The world after the requests [cfgs] were sent to [createTask], in
    order. *)
Definition withRequests (cfgs : list ServerConfig) (w : World) : World :=
  fold_left (fun acc cfg => recordCreateTask cfg acc) cfgs w.

(** ** String lemmas *)

Lemma prefix_append (needle post : string) :
  String.prefix needle (needle +:+ post) = true.
Proof.
  induction needle as [|x needle IH]; simpl.
  - now destruct post.
  - destruct (ascii_dec x x) as [_|Hne]; [exact IH | now elim Hne].
Qed.

Lemma prefix_split (needle s : string) :
  String.prefix needle s = true -> exists post, s = needle +:+ post.
Proof.
  revert s; induction needle as [|x needle IH]; intros s H.
  - now exists s.
  - destruct s as [|y s]; simpl in H; [discriminate|].
    destruct (ascii_dec x y) as [->|_]; [|discriminate].
    destruct (IH _ H) as [post ->]. now exists post.
Qed.

Lemma includes_prefix (s needle : string) :
  String.prefix needle s = true -> Js.includes s needle = true.
Proof. intros H. destruct s; simpl in *; now rewrite H. Qed.

Lemma includes_spec (s needle : string) :
  Js.includes s needle = true <-> Contains needle s.
Proof.
  split.
  - induction s as [|x s IH]; simpl; intros H.
    + destruct needle; [now exists "", "" | discriminate].
    + change (String.prefix needle (String x s) || Js.includes s needle = true)
        in H.
      apply orb_true_iff in H as [H|H].
      * apply prefix_split in H as [post ->]. now exists "", post.
      * destruct (IH H) as (pre & post & ->). now exists (String x pre), post.
  - intros (pre & post & ->). induction pre as [|x pre IH].
    + change (Js.includes (needle +:+ post) needle = true).
      apply includes_prefix, prefix_append.
    + change (String.prefix needle (String x (pre +:+ needle +:+ post))
              || Js.includes (pre +:+ needle +:+ post) needle = true).
      rewrite IH. apply orb_true_r.
Qed.

Lemma includes_false (s needle : string) :
  Js.includes s needle = false <-> ~ Contains needle s.
Proof.
  rewrite <- includes_spec. destruct (Js.includes s needle); split; intros H;
    try reflexivity; try discriminate; try (intros Hc; discriminate).
  now elim H.
Qed.

(** *** The digit scan and the regular expression *)

Lemma letter_not_digit (c : ascii) :
  (c = "h" \/ c = "H")%char -> Js.isDigit c = false.
Proof. now intros [-> | ->]. Qed.

Lemma digitsPrefix_run (ds tl : string) :
  AllDigits ds ->
  match tl with
  | EmptyString => True
  | String c _ => Js.isDigit c = false
  end ->
  Js.digitsPrefix (ds +:+ tl) = (ds, tl).
Proof.
  unfold AllDigits. induction ds as [|d ds IH]; simpl; intros Hds Htl.
  - destruct tl as [|c tl]; simpl; [reflexivity | now rewrite Htl].
  - apply andb_true_iff in Hds as [Hd Hds]. rewrite Hd, (IH Hds Htl).
    reflexivity.
Qed.

Lemma digitsPrefix_sound (s ds tl : string) :
  Js.digitsPrefix s = (ds, tl) -> s = ds +:+ tl /\ AllDigits ds.
Proof.
  unfold AllDigits. revert ds tl; induction s as [|c s IH]; simpl; intros ds tl H.
  - now inversion H.
  - destruct (Js.isDigit c) eqn:Hc.
    + destruct (Js.digitsPrefix s) as [ds' tl'] eqn:E. inversion H; subst.
      destruct (IH _ _ eq_refl) as [-> Hds]. simpl. now rewrite Hc, Hds.
    + now inversion H.
Qed.

Lemma matchesLetter_spec (ignoreCase : bool) (c : ascii) :
  Js.matchesLetter ignoreCase c = true -> (c = "h" \/ c = "H")%char.
Proof.
  unfold Js.matchesLetter. destruct ignoreCase.
  - intros H. apply orb_true_iff in H as [H|H]; apply Ascii.eqb_eq in H; auto.
  - intros H. apply Ascii.eqb_eq in H; auto.
Qed.

Lemma matchAt_sound (ignoreCase : bool) (s g : string) :
  Js.matchAt ignoreCase s = Some g ->
  g <> "" /\ AllDigits g /\
  exists c post, s = g +:+ String c post /\ (c = "h" \/ c = "H")%char.
Proof.
  unfold Js.matchAt. destruct (Js.digitsPrefix s) as [ds tl] eqn:E.
  destruct ds as [|d ds]; [discriminate|].
  destruct tl as [|c post]; [discriminate|].
  destruct (Js.matchesLetter ignoreCase c) eqn:Hc; [|discriminate].
  intros H; inversion H; subst g.
  destruct (digitsPrefix_sound _ _ _ E) as [-> Hds].
  split; [discriminate|]. split; [exact Hds|].
  exists c, post. split; [reflexivity|]. now apply matchesLetter_spec in Hc.
Qed.

Lemma matchAt_here (ds post : string) (c : ascii) :
  ds <> "" -> AllDigits ds -> (c = "h" \/ c = "H")%char ->
  Js.matchAt true (ds +:+ String c post) = Some ds.
Proof.
  intros Hne Hds Hc. unfold Js.matchAt.
  rewrite (digitsPrefix_run ds (String c post) Hds (letter_not_digit c Hc)).
  destruct ds as [|d ds]; [now elim Hne|].
  unfold Js.matchesLetter. now destruct Hc as [-> | ->].
Qed.

Lemma exec_matchAt (ignoreCase : bool) (s g : string) :
  Js.matchAt ignoreCase s = Some g -> Js.exec ignoreCase s = Some g.
Proof.
  intros H. destruct s as [|x s]; [discriminate H|].
  cbn [Js.exec]. now rewrite H.
Qed.

Lemma exec_sound (ignoreCase : bool) (s g : string) :
  Js.exec ignoreCase s = Some g -> HourCount g s.
Proof.
  induction s as [|x s IH]; simpl; [discriminate|].
  destruct (Js.matchAt ignoreCase (String x s)) as [g'|] eqn:E.
  - intros H; inversion H; subst g'.
    destruct (matchAt_sound _ _ _ E) as (Hne & Hds & c & post & Hs & Hc).
    exists "". repeat split; try assumption. exists c, post. now split.
  - intros H. destruct (IH H) as (pre & Hne & Hds & c & post & -> & Hc).
    exists (String x pre). repeat split; try assumption.
    exists c, post. now split.
Qed.

Lemma exec_complete (ds s : string) :
  HourCount ds s -> exists g, Js.exec true s = Some g.
Proof.
  intros (pre & Hne & Hds & c & post & -> & Hc).
  induction pre as [|x pre IH].
  - exists ds. apply exec_matchAt.
    change (Js.matchAt true (ds +:+ String c post) = Some ds).
    now apply matchAt_here.
  - change (exists g,
      Js.exec true (String x (pre +:+ ds +:+ String c post)) = Some g).
    cbn [Js.exec].
    destruct (Js.matchAt true _) as [g|]; [now eexists | exact IH].
Qed.

(** The second expression never adds a match: whatever [(\d+)H] finds,
    [(\d+)h] with the [i] flag has found already. *)
Lemma hourMatch_exec (s : string) : hourMatch s = Js.exec true s.
Proof.
  unfold hourMatch. destruct (Js.exec true s) as [g|] eqn:E; [reflexivity|].
  destruct (Js.exec false s) as [g|] eqn:E'; [|reflexivity].
  apply exec_sound, exec_complete in E' as [g' E']. congruence.
Qed.

(** The match returned is the one that starts first. *)
Lemma exec_first (s g : string) :
  Js.exec true s = Some g -> FirstHourCount g s.
Proof.
  revert g; induction s as [|x s IH]; intros g; [discriminate|].
  cbn [Js.exec].
  destruct (Js.matchAt true (String x s)) as [g'|] eqn:E.
  - intros H; inversion H; subst g'.
    destruct (matchAt_sound _ _ _ E) as (Hne & Hds & c & post & Hs & Hc).
    exists "". split.
    + repeat split; try assumption. exists c, post. now split.
    + intros pre' ds' _. cbn. lia.
  - intros H. destruct (IH g H) as (pre & (Hne & Hds & c & post & Hs & Hc) & Hmin).
    exists (String x pre). split.
    + repeat split; try assumption. exists c, post.
      split; [|exact Hc]. rewrite Hs. reflexivity.
    + intros pre' ds' (Hne' & Hds' & c' & post' & Hs' & Hc').
      destruct pre' as [|y pre'].
      * change (String x s = ds' +:+ String c' post') in Hs'.
        rewrite Hs', (matchAt_here ds' post' c' Hne' Hds' Hc') in E.
        discriminate E.
      * change (String x s = String y (pre' +:+ ds' +:+ String c' post'))
          in Hs'.
        inversion Hs' as [[Hx Hrest]].
        assert (Hat : HourCountAt pre' ds' s).
        { repeat split; try assumption. exists c', post'. now split. }
        apply Hmin in Hat. cbn. lia.
Qed.

Lemma append_same_length (a a' b b' : string) :
  String.length a = String.length a' -> a +:+ b = a' +:+ b' ->
  a = a' /\ b = b'.
Proof.
  revert a'; induction a as [|x a IH]; intros [|x' a'] Hlen Heq;
    try discriminate Hlen.
  - now split.
  - change (String x (a +:+ b) = String x' (a' +:+ b')) in Heq.
    inversion Heq as [[Hx Hrest]]. cbn in Hlen.
    destruct (IH a' ltac:(lia) Hrest) as [-> ->]. now split.
Qed.

Lemma FirstHourCount_unique (s g g' : string) :
  FirstHourCount g s -> FirstHourCount g' s -> g = g'.
Proof.
  intros (pre & Hat & Hmin) (pre' & Hat' & Hmin').
  pose proof (Hmin _ _ Hat') as Hle. pose proof (Hmin' _ _ Hat) as Hge.
  destruct Hat as (_ & Hds & c & post & Hs & Hc).
  destruct Hat' as (_ & Hds' & c' & post' & Hs' & Hc').
  rewrite Hs in Hs'.
  apply append_same_length in Hs' as [_ Hs']; [|lia].
  pose proof (digitsPrefix_run g (String c post) Hds (letter_not_digit c Hc))
    as E.
  rewrite Hs', (digitsPrefix_run g' (String c' post') Hds'
                  (letter_not_digit c' Hc')) in E.
  now inversion E.
Qed.

Lemma FirstHourCount_HourCount (s g : string) :
  FirstHourCount g s -> HourCount g s.
Proof. intros (pre & Hat & _). now exists pre. Qed.

(** What [hourMatch] returns: the hour count of the string that starts
    first. *)
Lemma hourMatch_first (s g : string) :
  hourMatch s = Some g <-> FirstHourCount g s.
Proof.
  rewrite hourMatch_exec. split; [apply exec_first|].
  intros H. destruct (exec_complete g s (FirstHourCount_HourCount s g H))
    as [g0 E].
  rewrite E. f_equal.
  exact (FirstHourCount_unique s g0 g (exec_first s g0 E) H).
Qed.

Lemma hourMatch_sound (s g : string) : hourMatch s = Some g -> HourCount g s.
Proof. rewrite hourMatch_exec. apply exec_sound. Qed.

Lemma hourMatch_complete (s : string) :
  HasHourCount s -> exists g, hourMatch s = Some g.
Proof.
  intros [ds H]. destruct (exec_complete _ _ H) as [g E].
  exists g. now rewrite hourMatch_exec.
Qed.

Lemma hourMatch_none (s : string) : hourMatch s = None <-> ~ HasHourCount s.
Proof.
  split.
  - intros E H. apply hourMatch_complete in H as [g Hg]. congruence.
  - intros H. destruct (hourMatch s) as [g|] eqn:E; [|reflexivity].
    elim H. exists g. now apply hourMatch_sound.
Qed.

Lemma toLowerCase_append (a b : string) :
  Js.toLowerCase (a +:+ b) = Js.toLowerCase a +:+ Js.toLowerCase b.
Proof.
  induction a as [|x a IH]; [reflexivity|].
  simpl. rewrite IH. reflexivity.
Qed.

(** A keyword that occurs as written also occurs "in some letter case": the
    any-case test is the weaker one. *)
Lemma Contains_any_case (needle s : string) :
  Js.toLowerCase needle = needle -> Contains needle s ->
  ContainsAnyCase needle s.
Proof.
  intros Hlow (pre & post & ->). unfold ContainsAnyCase.
  exists (Js.toLowerCase pre), (Js.toLowerCase post).
  now rewrite !toLowerCase_append, Hlow.
Qed.

(** ** The guards of [resolve] *)

Lemma NoNegativeKeyword_check (s : string) :
  Js.includes s "unavailable" || Js.includes s "out" || Js.includes s "none"
    = false <-> NoNegativeKeyword s.
Proof.
  unfold NoNegativeKeyword. rewrite <- !includes_false.
  rewrite !orb_false_iff. tauto.
Qed.

Lemma truthy_nonempty (s : string) : s <> "" -> Js.truthy (Some s) = true.
Proof. destruct s; [intros H; now elim H | reflexivity]. Qed.

Lemma not_Contains_neq (needle s : string) : ~ Contains needle s -> s <> needle.
Proof.
  intros H ->. apply H. apply includes_spec, includes_prefix.
  clear H. induction needle as [|x n IH]; simpl; [reflexivity|].
  destruct (ascii_dec x x) as [_|Hne]; [exact IH | now elim Hne].
Qed.

(** Past the unknown and out-of-stock guards, [resolve] is the urgency
    classification written out below. *)
Lemma resolve_positive (s : string) :
  s <> "" -> s <> "unknown" -> NoNegativeKeyword s ->
  resolve (Some s) =
    match hourMatch s with
    | Some hours =>
        if (Js.parseInt hours <=? 1)%N then
          {| availability := available; icon := CheckCircleGreen;
             label := if Js.includes (Js.toLowerCase s) "low"
                      then hours +:+ "小时内(库存有限)"
                      else hours +:+ "小时内(可用)" |}
        else
          {| availability := soon; icon := AlertCircleYellow;
             label := hours +:+ "小时内可用" |}
    | None =>
        if Js.includes (Js.toLowerCase s) "high" then
          {| availability := available; icon := CheckCircleGreen;
             label := "库存充足" |}
        else if Js.includes (Js.toLowerCase s) "low" then
          {| availability := soon; icon := AlertCircleYellow;
             label := "库存有限" |}
        else if String.eqb s "available" then
          {| availability := available; icon := CheckCircleGreen;
             label := "有货" |}
        else
          {| availability := available; icon := CheckCircleGreen; label := s |}
    end.
Proof.
  intros Hne Hunk Hneg. unfold resolve.
  rewrite (truthy_nonempty s Hne).
  apply String.eqb_neq in Hunk. rewrite Hunk.
  pose proof Hneg as (Hun & _ & _). apply not_Contains_neq in Hun.
  apply String.eqb_neq in Hun. rewrite Hun.
  apply NoNegativeKeyword_check in Hneg. rewrite Hneg. cbn [negb orb].
  destruct (hourMatch s) as [hours|]; [|reflexivity].
  destruct (Js.parseInt hours <=? 1)%N; [reflexivity|].
  now destruct (Js.parseInt hours <=? 24)%N.
Qed.

Lemma HasHourCount_nonempty (s : string) :
  HasHourCount s -> s <> "" /\ s <> "unknown".
Proof.
  intros H. apply hourMatch_complete in H as [g Hg].
  split; intros ->; vm_compute in Hg; discriminate.
Qed.

(** [getAvailabilityInfo] is [resolve] on the entry of the lower-cased
    datacenter id, once the plan has availability data. *)
Lemma getAvailabilityInfo_resolve
    (datacenterAvailability : gmap string (gmap string string))
    (serverAvailability : gmap string string) (planCode datacenterId : string) :
  datacenterAvailability !! planCode = Some serverAvailability ->
  getAvailabilityInfo datacenterAvailability planCode datacenterId
    = resolve (serverAvailability !! Js.toLowerCase datacenterId).
Proof. intros H. unfold getAvailabilityInfo. now rewrite H. Qed.

Lemma getAvailabilityInfo_unchecked
    (datacenterAvailability : gmap string (gmap string string))
    (planCode datacenterId : string) :
  datacenterAvailability !! planCode = None ->
  availability (getAvailabilityInfo datacenterAvailability planCode datacenterId)
    = unknown.
Proof. intros H. unfold getAvailabilityInfo. now rewrite H. Qed.

(** ** Properties of [resolve] *)

(** C1, as the specification states it, fails on the code: the raw string
    '24H' has the hour count 24, which is at most 24, and [resolve] classifies
    it as [soon], not as [available]. *)
Lemma hour_count_24H_is_soon :
  FirstHourCount "24" "24H" /\ (Js.parseInt "24" <= 24)%N /\
  resolve (Some "24H") =
    {| availability := soon; icon := AlertCircleYellow;
       label := "24小时内可用" |} /\
  availability (resolve (Some "24H")) <> available.
Proof.
  split; [|split; [|split]].
  - apply hourMatch_first. reflexivity.
  - vm_compute. discriminate.
  - reflexivity.
  - vm_compute. discriminate.
Qed.

(** C1 (amended): for every raw string that contains none of the
    out-of-stock keywords and contains an hour count (digits immediately
    followed by 'h' or 'H'), let [hours] be the hour count that starts first
    and N its value: [resolve] classifies the string as [available] when
    N <= 1, with label "<hours>小时内(库存有限)" when the string contains 'low'
    in some letter case and "<hours>小时内(可用)" otherwise, and as [soon] when
    N > 1, with label "<hours>小时内可用". *)
Theorem resolve_hour_count (s hours : string) :
  NoNegativeKeyword s -> FirstHourCount hours s ->
  ((Js.parseInt hours <= 1)%N ->
     availability (resolve (Some s)) = available /\
     (ContainsAnyCase "low" s ->
        label (resolve (Some s)) = hours +:+ "小时内(库存有限)") /\
     (~ ContainsAnyCase "low" s ->
        label (resolve (Some s)) = hours +:+ "小时内(可用)")) /\
  ((1 < Js.parseInt hours)%N ->
     availability (resolve (Some s)) = soon /\
     label (resolve (Some s)) = hours +:+ "小时内可用").
Proof.
  intros Hneg Hfirst.
  assert (Hh : HasHourCount s)
    by (exists hours; now apply FirstHourCount_HourCount).
  destruct (HasHourCount_nonempty s Hh) as [Hne Hunk].
  apply hourMatch_first in Hfirst.
  rewrite (resolve_positive s Hne Hunk Hneg), Hfirst.
  split; intros HN.
  - apply N.leb_le in HN. rewrite HN. cbn [availability label].
    split; [reflexivity|]. split; intros Hlow.
    + apply includes_spec in Hlow. now rewrite Hlow.
    + apply includes_false in Hlow. now rewrite Hlow.
  - apply N.leb_gt in HN. rewrite HN. now split.
Qed.

Lemma resolve_hour_count_witness :
  availability (resolve (Some "1H-low")) = available /\
  label (resolve (Some "1H-low")) = "1小时内(库存有限)" /\
  availability (resolve (Some "72H")) = soon /\
  label (resolve (Some "72H")) = "72小时内可用".
Proof.
  assert (Hneg1 : NoNegativeKeyword "1H-low")
    by (apply NoNegativeKeyword_check; reflexivity).
  assert (Hfirst1 : FirstHourCount "1" "1H-low")
    by (apply hourMatch_first; reflexivity).
  assert (Hneg72 : NoNegativeKeyword "72H")
    by (apply NoNegativeKeyword_check; reflexivity).
  assert (Hfirst72 : FirstHourCount "72" "72H")
    by (apply hourMatch_first; reflexivity).
  destruct (resolve_hour_count "1H-low" "1" Hneg1 Hfirst1) as [Hle _].
  destruct (resolve_hour_count "72H" "72" Hneg72 Hfirst72) as [_ Hgt].
  assert (H1 : (Js.parseInt "1" <= 1)%N) by (vm_compute; discriminate).
  assert (H72 : (1 < Js.parseInt "72")%N) by reflexivity.
  destruct (Hle H1) as (Ha & Hl & _). destruct (Hgt H72) as (Ha' & Hl').
  assert (Hlow : ContainsAnyCase "low" "1H-low")
    by (apply includes_spec; reflexivity).
  split; [exact Ha|]. split; [exact (Hl Hlow)|].
  split; [exact Ha' | exact Hl'].
Defined.

(** C3, as the specification states it, fails on the code: 'OUT' contains
    the keyword 'out' in upper case, and [resolve] classifies it as
    [available], with the raw string as label. *)
Lemma upper_case_OUT_is_available :
  ContainsAnyCase "out" "OUT" /\
  resolve (Some "OUT") =
    {| availability := available; icon := CheckCircleGreen; label := "OUT" |} /\
  availability (resolve (Some "OUT")) <> unavailable.
Proof.
  split; [|split].
  - unfold ContainsAnyCase. apply includes_spec. reflexivity.
  - reflexivity.
  - vm_compute. discriminate.
Qed.

(** C3 (amended): for every raw string that contains 'unavailable', 'out' or
    'none' written in lower case, [resolve] returns the out-of-stock
    classification ([unavailable], red icon, label "无货"). *)
Theorem resolve_negative_keyword (s : string) :
  Contains "unavailable" s \/ Contains "out" s \/ Contains "none" s ->
  resolve (Some s) =
    {| availability := unavailable; icon := XCircleRed; label := "无货" |}.
Proof.
  intros H.
  assert (Hinc : Js.includes s "unavailable" || Js.includes s "out"
                 || Js.includes s "none" = true).
  { rewrite !orb_true_iff, !includes_spec. tauto. }
  unfold resolve.
  destruct s as [|c s]; [vm_compute in Hinc; discriminate|].
  cbn [Js.truthy negb orb].
  destruct (String.eqb (String c s) "unknown") eqn:Eu.
  - apply String.eqb_eq in Eu. rewrite Eu in Hinc.
    vm_compute in Hinc. discriminate.
  - destruct (String.eqb (String c s) "unavailable"); [reflexivity|].
    now rewrite Hinc.
Qed.

Lemma resolve_negative_keyword_witness :
  (Contains "unavailable" "sold-out" \/ Contains "out" "sold-out"
   \/ Contains "none" "sold-out") /\
  resolve (Some "sold-out") =
    {| availability := unavailable; icon := XCircleRed; label := "无货" |}.
Proof.
  assert (H : Contains "unavailable" "sold-out" \/ Contains "out" "sold-out"
              \/ Contains "none" "sold-out").
  { right; left. now exists "sold-", "". }
  split; [exact H|]. exact (resolve_negative_keyword "sold-out" H).
Defined.

(** C7: [resolve] is total: it is a function defined on every input, an
    absent value as well as any raw string.  An absent value, the empty
    string (absent for the code's [!availability]) and 'unknown' yield
    [unknown].  Every other string that contains no out-of-stock keyword as
    written (in particular every string that contains none in any letter
    case, see [Contains_any_case]), no hour count, neither 'high' nor 'low'
    in any letter case, and is not 'available', yields [available] with the
    raw string itself as label. *)
Theorem resolve_total_fail_open :
  (forall raw : option string, exists info, resolve raw = info) /\
  availability (resolve None) = unknown /\
  availability (resolve (Some "")) = unknown /\
  availability (resolve (Some "unknown")) = unknown /\
  (forall s : string,
     s <> "" -> s <> "unknown" -> NoNegativeKeyword s ->
     ~ HasHourCount s ->
     ~ ContainsAnyCase "high" s -> ~ ContainsAnyCase "low" s ->
     s <> "available" ->
     resolve (Some s) =
       {| availability := available; icon := CheckCircleGreen; label := s |}).
Proof.
  split; [intros raw; now exists (resolve raw)|].
  split; [reflexivity|]. split; [reflexivity|]. split; [reflexivity|].
  intros s Hne Hunk Hneg Hh Hhigh Hlow Hav.
  rewrite (resolve_positive s Hne Hunk Hneg).
  apply hourMatch_none in Hh. rewrite Hh.
  apply includes_false in Hhigh, Hlow. rewrite Hhigh, Hlow.
  apply String.eqb_neq in Hav. now rewrite Hav.
Qed.

Lemma resolve_total_fail_open_witness :
  resolve (Some "comingSoon") =
    {| availability := available; icon := CheckCircleGreen;
       label := "comingSoon" |}.
Proof.
  apply (proj2 (proj2 (proj2 (proj2 resolve_total_fail_open)))).
  - discriminate.
  - discriminate.
  - apply NoNegativeKeyword_check. reflexivity.
  - apply hourMatch_none. reflexivity.
  - apply includes_false. reflexivity.
  - apply includes_false. reflexivity.
  - discriminate.
Defined.

(** ** Properties of the option selection *)

Lemma differs_same (optionCode : string) :
  differs (Some optionCode) optionCode = false.
Proof. unfold differs. now rewrite bool_decide_eq_true_2. Qed.

(** Which family a call of [handleSelectOption] addresses. *)
Ltac family_cases family :=
  destruct (String.eqb family "memory") eqn:?Hmemory;
  [| destruct (String.eqb family "storage") eqn:?Hstorage;
     [| destruct (String.eqb family "bandwidth") eqn:?Hbandwidth;
        [| destruct (String.eqb family "vrack") eqn:?Hvrack ] ] ].

(** An option click writes neither the confirmed flag, nor the datacenter
    selection, nor the busy flags. *)
Lemma handleSelectOption_frame (family optionCode displayText : string)
    (st : CardState) :
  let st' := snd (handleSelectOption family optionCode displayText st) in
  configConfirmed st' = configConfirmed st /\
  selectedDatacenters st' = selectedDatacenters st /\
  isChecking st' = isChecking st /\
  isAddingToQueue st' = isAddingToQueue st.
Proof.
  unfold handleSelectOption. family_cases family;
    repeat match goal with
           | |- context [differs ?a ?b] => destruct (differs a b)
           end; cbn; auto.
Qed.


(** C9: for every family and option code, a second [handleSelectOption] with
    the same code finds no real change ([isRealChange] is false), leaves the
    list of selected options as it was, and writes neither the changed flag
    nor the confirmed flag, so the confirmation state does not move; with the
    same display text the whole state is unchanged. *)
Theorem reselect_same_option_is_noop
    (family optionCode display1 display2 : string) (st : CardState) :
  let st1 := snd (handleSelectOption family optionCode display1 st) in
  let second := handleSelectOption family optionCode display2 st1 in
  fst second = false /\
  getSelectedOptions (snd second) = getSelectedOptions st1 /\
  configChanged (snd second) = configChanged st1 /\
  configConfirmed (snd second) = configConfirmed st1 /\
  confirmationState (snd second) = confirmationState st1 /\
  snd (handleSelectOption family optionCode display1 st1) = st1.
Proof.
  unfold handleSelectOption. family_cases family;
    repeat match goal with
           | |- context [differs (?f st) ?b] => destruct (differs (f st) b)
           end; cbn; rewrite ?differs_same; cbn; auto 10.
Qed.

(** ** Properties of the configuration check *)

(** C5: when the availability check started by
    [handleCheckConfigAvailability] rejects, the confirmed and changed flags
    (hence the confirmation state) are what they were before the call, the
    whole card state is the one before the call with the busy flag cleared,
    nothing is written to the store, and one destructive toast "检查失败" is
    shown. *)
Theorem rejected_check_keeps_state
    (server : FormattedServer) (JSON_stringify : SavedConfig -> string)
    (st : CardState) (w : World) :
  let after := handleCheckConfigAvailability server JSON_stringify Rejected st w in
  configConfirmed (fst after) = configConfirmed st /\
  configChanged (fst after) = configChanged st /\
  confirmationState (fst after) = confirmationState st /\
  fst after = setIsChecking false st /\
  localStorage (snd after) = localStorage w /\
  toasts (snd after) =
    (toasts w ++ [ {| title := "检查失败";
                      description := "无法检查所选配置可用性，请重试";
                      variant := Some VariantDestructive |} ])%list.
Proof. cbn. auto 10. Qed.

(** ** Properties of mounting *)

(** The default selections write neither flag nor the datacenter selection
    nor the busy flags. *)
Lemma selectDefaults_frame (server : FormattedServer) (st : CardState) :
  let st' := selectDefaults server st in
  configConfirmed st' = configConfirmed st /\
  configChanged st' = configChanged st /\
  selectedDatacenters st' = selectedDatacenters st /\
  isChecking st' = isChecking st /\
  isAddingToQueue st' = isAddingToQueue st.
Proof.
  unfold selectDefaults, selectDefault.
  repeat match goal with
         | |- context [if ?b then _ else _] => destruct b
         | |- context [match findDefaultOption ?o ?c with _ => _ end] =>
             destruct (findDefaultOption o c)
         end; cbn; auto 10.
Qed.

Lemma restoreSavedConfig_frame (saved : SavedConfig) (st : CardState) :
  let st' := restoreSavedConfig saved st in
  selectedDatacenters st' = selectedDatacenters st /\
  isChecking st' = isChecking st /\
  isAddingToQueue st' = isAddingToQueue st.
Proof.
  unfold restoreSavedConfig, restoreFamily.
  destruct (savedMemory saved), (savedStorage saved), (savedBandwidth saved),
    (savedVrack saved); cbn; auto.
Qed.

Lemma mount_idle (server : FormattedServer)
    (JSON_parse : string -> option SavedConfig) (storage : gmap string string) :
  isChecking (mount server JSON_parse storage) = false /\
  isAddingToQueue (mount server JSON_parse storage) = false /\
  selectedDatacenters (mount server JSON_parse storage) = [].
Proof.
  unfold mount, restoreEffect.
  destruct (Js.truthy _);
    [destruct (_ ≫= JSON_parse) as [saved|]|].
  - destruct (restoreSavedConfig_frame saved (initialState server))
      as (-> & -> & ->). auto.
  - destruct (selectDefaults_frame server (initialState server))
      as (_ & _ & -> & -> & ->). auto.
  - destruct (selectDefaults_frame server (initialState server))
      as (_ & _ & -> & -> & ->). auto.
Qed.

Lemma selectDefault_find
    (setSelected : option string -> CardState -> CardState)
    (options : list ServerOption) (current : string) (st : CardState) :
  selectDefault setSelected options current st =
    match findDefaultOption options current with
    | Some defaultOption => setSelected (Some (code defaultOption)) st
    | None => st
    end.
Proof. unfold selectDefault. now destruct options. Qed.

Lemma selectDefaults_fields (server : FormattedServer) (st : CardState) :
  let pick options current previous :=
    match findDefaultOption options current with
    | Some defaultOption => Some (code defaultOption)
    | None => previous
    end in
  let st' := selectDefaults server st in
  selectedMemory st'
    = pick (memoryOptions server) (memory server) (selectedMemory st) /\
  selectedStorage st'
    = pick (storageOptions server) (storage server) (selectedStorage st) /\
  selectedBandwidth st'
    = pick (bandwidthOptions server) (bandwidth server) (selectedBandwidth st) /\
  selectedVrack st'
    = pick (vrackOptions server) (vrack server) (selectedVrack st) /\
  displayedMemory st' = displayedMemory st /\
  displayedStorage st' = displayedStorage st /\
  displayedBandwidth st' = displayedBandwidth st /\
  displayedVrack st'
    = match findDefaultOption (vrackOptions server) (vrack server) with
      | Some _ => displayedVrack st
      | None => "无vRack"
      end.
Proof.
  cbv zeta. unfold selectDefaults. rewrite !selectDefault_find.
  assert (Hv : forall st0,
    (if Nat.ltb 0 (length (vrackOptions server))
     then match findDefaultOption (vrackOptions server) (vrack server) with
          | Some d => setSelectedVrack (Some (code d)) st0
          | None => setDisplayedVrack "无vRack" st0
          end
     else setDisplayedVrack "无vRack" st0)
    = match findDefaultOption (vrackOptions server) (vrack server) with
      | Some d => setSelectedVrack (Some (code d)) st0
      | None => setDisplayedVrack "无vRack" st0
      end).
  { intros st0. now destruct (vrackOptions server). }
  rewrite Hv.
  destruct (findDefaultOption (memoryOptions server) (memory server));
    destruct (findDefaultOption (storageOptions server) (storage server));
    destruct (findDefaultOption (bandwidthOptions server) (bandwidth server));
    destruct (findDefaultOption (vrackOptions server) (vrack server));
    cbn; auto 10.
Qed.

Lemma findDefaultOption_Some (options : list ServerOption) (current : string)
    (opt : ServerOption) :
  findDefaultOption options current = Some opt ->
  In opt options /\ formatted opt = current.
Proof.
  intros H. apply List.find_some in H as [Hin E].
  apply String.eqb_eq in E. now split.
Qed.

Lemma findDefaultOption_None (options : list ServerOption) (current : string) :
  findDefaultOption options current = None ->
  forall opt, In opt options -> formatted opt <> current.
Proof.
  intros H opt Hin E. apply (List.find_none _ _ H) in Hin.
  apply String.eqb_neq in Hin. now elim Hin.
Qed.

(** [find] returns the first element that passes the test. *)
Lemma findDefaultOption_first (options : list ServerOption) (current : string)
    (opt : ServerOption) :
  findDefaultOption options current = Some opt ->
  exists before after,
    options = (before ++ opt :: after)%list /\
    formatted opt = current /\
    forall earlier, In earlier before -> formatted earlier <> current.
Proof.
  unfold findDefaultOption.
  induction options as [|o l IH]; cbn [List.find]; [discriminate|].
  destruct (String.eqb (formatted o) current) eqn:E.
  - intros H. inversion H. subst o. apply String.eqb_eq in E.
    exists [], l. repeat split; [exact E | intros earlier []].
  - intros H. destruct (IH H) as (before & after & -> & Hf & Hbefore).
    exists (o :: before), after. repeat split; [exact Hf|].
    intros earlier [<- | Hin]; [now apply String.eqb_neq | now apply Hbefore].
Qed.

(** C10: when the store holds a snapshot for the plan that cannot be parsed,
    mounting still yields a state (the exception is caught): the state is the
    one with the plan's default selections, the same as when the store holds
    no snapshot for the plan, and the card is not confirmed: both flags are
    false and the confirmation state is [Default].  The default selections
    are, in each family, the code of the first option the server offers whose
    text is the server's own specification of that family, and nothing when
    no option has that text; the displayed texts are the server's
    specifications, the vRack line reading "无vRack" when nothing is selected
    for it; no datacenter is selected. *)
Theorem unparseable_snapshot_falls_back
    (server : FormattedServer) (JSON_parse : string -> option SavedConfig)
    (store : gmap string string) (text : string) :
  store !! confirmedConfigKey server = Some text ->
  JSON_parse text = None ->
  let st := mount server JSON_parse store in
  let defaultOf selected options specification :=
    match selected with
    | Some c =>
        exists before opt after,
          options = (before ++ opt :: after)%list /\
          code opt = c /\ formatted opt = specification /\
          forall earlier, In earlier before -> formatted earlier <> specification
    | None => forall opt, In opt options -> formatted opt <> specification
    end in
  st = selectDefaults server (initialState server) /\
  st = mount server JSON_parse (delete (confirmedConfigKey server) store) /\
  configConfirmed st = false /\
  configChanged st = false /\
  confirmationState st = Default /\
  defaultOf (selectedMemory st) (memoryOptions server) (memory server) /\
  defaultOf (selectedStorage st) (storageOptions server) (storage server) /\
  defaultOf (selectedBandwidth st) (bandwidthOptions server)
    (bandwidth server) /\
  defaultOf (selectedVrack st) (vrackOptions server) (vrack server) /\
  displayedMemory st = memory server /\
  displayedStorage st = storage server /\
  displayedBandwidth st = bandwidth server /\
  displayedVrack st
    = match selectedVrack st with
      | Some _ => vrack server
      | None => "无vRack"
      end /\
  selectedDatacenters st = [].
Proof.
  intros Hstored Hparse st defaultOf.
  assert (E : st = selectDefaults server (initialState server)).
  { subst st. unfold mount, restoreEffect. rewrite Hstored.
    cbn [mbind option_bind]. rewrite Hparse.
    now destruct (Js.truthy (Some text)). }
  assert (E' : mount server JSON_parse
                 (delete (confirmedConfigKey server) store)
               = selectDefaults server (initialState server)).
  { unfold mount, restoreEffect. now rewrite lookup_delete_eq. }
  destruct (selectDefaults_fields server (initialState server))
    as (Hm & Hs & Hb & Hv & Hdm & Hds & Hdb & Hdv).
  destruct (selectDefaults_frame server (initialState server))
    as (Hc & Hch & Hdcs & _).
  cbv zeta in *. rewrite <- E in *.
  assert (Hdef : forall options specification,
            defaultOf
              match findDefaultOption options specification with
              | Some d => Some (code d)
              | None => None
              end options specification).
  { intros options specification. subst defaultOf. cbv beta.
    destruct (findDefaultOption options specification) as [d|] eqn:Ef.
    - apply findDefaultOption_first in Ef
        as (before & after & Hopts & Hf & Hbefore).
      now exists before, d, after.
    - now apply findDefaultOption_None. }
  split; [reflexivity|]. split; [now rewrite E'|].
  split; [now rewrite Hc|]. split; [now rewrite Hch|].
  split; [unfold confirmationState; now rewrite Hc, Hch|].
  split; [rewrite Hm; apply Hdef|]. split; [rewrite Hs; apply Hdef|].
  split; [rewrite Hb; apply Hdef|]. split; [rewrite Hv; apply Hdef|].
  split; [now rewrite Hdm|]. split; [now rewrite Hds|].
  split; [now rewrite Hdb|].
  split; [|now rewrite Hdcs].
  rewrite Hdv, Hv. cbn.
  now destruct (findDefaultOption (vrackOptions server) (vrack server)).
Qed.

Lemma unparseable_snapshot_falls_back_witness :
  let st := mount Sample.ks1 Sample.parse Sample.brokenStore in
  selectedMemory st = Some "32g" /\
  selectedStorage st = None /\
  selectedBandwidth st = None /\
  selectedVrack st = None /\
  displayedMemory st = "32 GB" /\
  displayedStorage st = "2x480 GB SSD" /\
  displayedBandwidth st = "1 Gbps" /\
  displayedVrack st = "无vRack" /\
  configConfirmed st = false /\
  configChanged st = false /\
  confirmationState st = Default /\
  selectedDatacenters st = [] /\
  st = mount Sample.ks1 Sample.parse
         (delete (confirmedConfigKey Sample.ks1) Sample.brokenStore).
Proof.
  pose proof (unparseable_snapshot_falls_back Sample.ks1 Sample.parse
                Sample.brokenStore "{memory:" eq_refl eq_refl) as H.
  cbv zeta in H.
  destruct H as (_ & Hsame & Hc & Hch & Hstate & _ & _ & _ & _
                 & Hdm & Hds & Hdb & Hdv & Hdcs).
  cbv zeta.
  split; [reflexivity|]. split; [reflexivity|]. split; [reflexivity|].
  split; [reflexivity|].
  split; [exact Hdm|]. split; [exact Hds|]. split; [exact Hdb|].
  split; [exact Hdv|]. split; [exact Hc|]. split; [exact Hch|].
  split; [exact Hstate|]. split; [exact Hdcs | exact Hsame].
Defined.

(** ** Properties of the submission loop *)

Lemma withRequests_fields (cfgs : list ServerConfig) (w : World) :
  createTaskCalls (withRequests cfgs w) = (createTaskCalls w ++ cfgs)%list /\
  toasts (withRequests cfgs w) = toasts w /\
  localStorage (withRequests cfgs w) = localStorage w /\
  checkCalls (withRequests cfgs w) = checkCalls w /\
  invalidatedQueries (withRequests cfgs w) = invalidatedQueries w /\
  navigations (withRequests cfgs w) = navigations w.
Proof.
  revert w; induction cfgs as [|cfg cfgs IH]; intros w.
  - cbn. now rewrite app_nil_r.
  - change (withRequests (cfg :: cfgs) w)
      with (withRequests cfgs (recordCreateTask cfg w)).
    destruct (IH (recordCreateTask cfg w)) as (-> & -> & -> & -> & -> & ->).
    cbn. now rewrite <- app_assoc.
Qed.

(** While every request resolves the loop goes through the whole list. *)
Lemma createTasks_all_resolved (server : FormattedServer)
    (createTask : ServerConfig -> Settled) (opts : list SelectedOption)
    (datacenters : list string) (w : World) :
  (forall d, In d datacenters ->
             createTask (serverConfigFor server opts d) = Resolved) ->
  createTasks server createTask opts datacenters w
    = (Resolved,
       withRequests (List.map (serverConfigFor server opts) datacenters) w).
Proof.
  revert w; induction datacenters as [|d rest IH]; intros w Hall.
  - reflexivity.
  - cbn [createTasks]. rewrite (Hall d) by now left.
    rewrite IH by (intros d' Hd'; apply Hall; now right). reflexivity.
Qed.

(** The first rejected request ends the loop: the datacenters after it get no
    request. *)
Lemma createTasks_first_rejected (server : FormattedServer)
    (createTask : ServerConfig -> Settled) (opts : list SelectedOption)
    (before after : list string) (dc : string) (w : World) :
  (forall d, In d before ->
             createTask (serverConfigFor server opts d) = Resolved) ->
  createTask (serverConfigFor server opts dc) = Rejected ->
  createTasks server createTask opts (before ++ dc :: after) w
    = (Rejected,
       withRequests (List.map (serverConfigFor server opts) (before ++ [dc])) w).
Proof.
  revert w; induction before as [|d rest IH]; intros w Hall Hdc.
  - cbn [app createTasks]. now rewrite Hdc.
  - cbn [app createTasks]. rewrite (Hall d) by now left.
    rewrite IH; [reflexivity | intros d' Hd'; apply Hall; now right | exact Hdc].
Qed.

(** The three ways [handleAddToQueue] ends. *)
Lemma handleAddToQueue_empty (server : FormattedServer)
    (createTask : ServerConfig -> Settled) (st : CardState) (w : World) :
  selectedDatacenters st = [] ->
  handleAddToQueue server createTask st w
    = (setIsAddingToQueue false st,
       pushToast {| title := "未选择数据中心";
                    description := "请至少选择一个数据中心添加到抢购队列";
                    variant := Some VariantDestructive |} w).
Proof. intros H. unfold handleAddToQueue. rewrite H. reflexivity. Qed.

Lemma handleAddToQueue_resolved (server : FormattedServer)
    (createTask : ServerConfig -> Settled) (st : CardState) (w : World) :
  selectedDatacenters st <> [] ->
  (forall d, In d (selectedDatacenters st) ->
     createTask (serverConfigFor server (getSelectedOptions st) d) = Resolved) ->
  handleAddToQueue server createTask st w
    = (setIsAddingToQueue false (setSelectedDatacenters [] st),
       navigate "/queue"
         (pushToast
            {| title := "添加成功";
               description :=
                 "已将 " +:+ name server +:+ " 添加到抢购队列，共 "
                 +:+ pretty (length (selectedDatacenters st))
                 +:+ " 个数据中心";
               variant := Some VariantDefault |}
            (invalidateQueries "tasks"
               (withRequests
                  (List.map (serverConfigFor server (getSelectedOptions st))
                     (selectedDatacenters st))
                  (pushToast
                     {| title := "正在添加...";
                        description := "正在将 " +:+ name server
                                       +:+ " 添加到抢购队列";
                        variant := None |} w))))).
Proof.
  intros Hne Hall. unfold handleAddToQueue.
  destruct (selectedDatacenters st) as [|d rest] eqn:E; [now elim Hne|].
  cbn [length Nat.eqb].
  now rewrite (createTasks_all_resolved server createTask _ (d :: rest) _ Hall).
Qed.

Lemma handleAddToQueue_rejected (server : FormattedServer)
    (createTask : ServerConfig -> Settled) (st : CardState) (w : World)
    (before after : list string) (dc : string) :
  selectedDatacenters st = (before ++ dc :: after)%list ->
  (forall d, In d before ->
     createTask (serverConfigFor server (getSelectedOptions st) d) = Resolved) ->
  createTask (serverConfigFor server (getSelectedOptions st) dc) = Rejected ->
  handleAddToQueue server createTask st w
    = (setIsAddingToQueue false st,
       pushToast
         {| title := "添加失败";
            description := "无法将服务器添加到抢购队列，请重试";
            variant := Some VariantDestructive |}
         (withRequests
            (List.map (serverConfigFor server (getSelectedOptions st))
               (before ++ [dc]))
            (pushToast
               {| title := "正在添加...";
                  description := "正在将 " +:+ name server
                                 +:+ " 添加到抢购队列";
                  variant := None |} w))).
Proof.
  intros Hsel Hbefore Hdc. unfold handleAddToQueue. rewrite Hsel.
  destruct (Nat.eqb (length (before ++ dc :: after)) 0) eqn:Elen.
  { apply Nat.eqb_eq in Elen. rewrite length_app in Elen. cbn in Elen. lia. }
  now rewrite (createTasks_first_rejected server createTask _ before after dc _
                 Hbefore Hdc).
Qed.

(** C4, as the specification states it, fails on the code: with bhs and rbx
    selected and the request for bhs rejected, the only request sent is the
    one for bhs; rbx, the remaining datacenter, gets none. *)
Lemma rejected_bhs_leaves_rbx_unsent :
  let '(st, w) := Sample.confirmedWithTwoDatacenters in
  let after := handleAddToQueue Sample.ks1 (Sample.rejectAt "bhs") st w in
  selectedDatacenters st = ["bhs"; "rbx"] /\
  addToQueueDisabled st = false /\
  List.map cfgDatacenter (createTaskCalls (snd after)) = ["bhs"] /\
  ~ In "rbx" (List.map cfgDatacenter (createTaskCalls (snd after))).
Proof.
  vm_compute. repeat split; try reflexivity.
  intros [H|[]]. discriminate H.
Qed.

(** C4 (amended): when the request for one selected datacenter is rejected
    and those before it resolved, the requests sent are exactly the ones for
    the datacenters up to and including the rejected one, in order (the
    datacenters after it get no request); nothing else is sent, so the
    requests already accepted stay; the card state is the one before the
    call (datacenter selection, option selection and both flags intact, busy
    flag cleared); the store is untouched, there is no navigation, and the
    toasts shown are the "正在添加..." notice and one destructive "添加失败". *)
Theorem rejected_task_stops_submission
    (server : FormattedServer) (createTask : ServerConfig -> Settled)
    (st : CardState) (w : World) (before after : list string) (dc : string) :
  selectedDatacenters st = (before ++ dc :: after)%list ->
  (forall d, In d before ->
     createTask (serverConfigFor server (getSelectedOptions st) d) = Resolved) ->
  createTask (serverConfigFor server (getSelectedOptions st) dc) = Rejected ->
  let result := handleAddToQueue server createTask st w in
  createTaskCalls (snd result) =
    (createTaskCalls w
     ++ List.map (serverConfigFor server (getSelectedOptions st))
          (before ++ [dc]))%list /\
  fst result = setIsAddingToQueue false st /\
  selectedDatacenters (fst result) = selectedDatacenters st /\
  confirmationState (fst result) = confirmationState st /\
  getSelectedOptions (fst result) = getSelectedOptions st /\
  localStorage (snd result) = localStorage w /\
  navigations (snd result) = navigations w /\
  toasts (snd result) =
    (toasts w ++
     [ {| title := "正在添加...";
          description := "正在将 " +:+ name server +:+ " 添加到抢购队列";
          variant := None |};
       {| title := "添加失败";
          description := "无法将服务器添加到抢购队列，请重试";
          variant := Some VariantDestructive |} ])%list.
Proof.
  intros Hsel Hbefore Hdc result. subst result.
  rewrite (handleAddToQueue_rejected server createTask st w before after dc
             Hsel Hbefore Hdc).
  cbn [fst snd].
  match goal with
  | |- context [withRequests ?cfgs ?w0] =>
      destruct (withRequests_fields cfgs w0) as (Hc & Ht & Hl & _ & _ & Hn)
  end.
  cbn [pushToast createTaskCalls toasts localStorage navigations] in *.
  rewrite Hc, Ht, Hl, Hn. rewrite <- app_assoc.
  repeat split; reflexivity.
Qed.

Lemma rejected_task_stops_submission_witness :
  let st := fst Sample.confirmedWithTwoDatacenters in
  let w := snd Sample.confirmedWithTwoDatacenters in
  let result := handleAddToQueue Sample.ks1 (Sample.rejectAt "rbx") st w in
  List.map cfgName (createTaskCalls (snd result)) = ["ks-1 (bhs)"; "ks-1 (rbx)"]
  /\ selectedDatacenters (fst result) = ["bhs"; "rbx"]
  /\ confirmationState (fst result) = Confirmed.
Proof.
  pose proof (rejected_task_stops_submission Sample.ks1 (Sample.rejectAt "rbx")
                (fst Sample.confirmedWithTwoDatacenters)
                (snd Sample.confirmedWithTwoDatacenters)
                ["bhs"] [] "rbx" eq_refl) as H.
  cbv zeta in *.
  destruct H as (Hcalls & _ & Hsel & Hconf & _).
  - intros d [<-|[]]. reflexivity.
  - reflexivity.
  - rewrite Hcalls, Hsel, Hconf. repeat split.
Defined.

Lemma push_In (fam : string) (selected : option string) (fam' code : string) :
  In {| optLabel := fam'; optValue := code |}
     match selected with
     | Some (String c rest) =>
         [ {| optLabel := fam; optValue := String c rest |} ]
     | _ => []
     end
  <-> code <> "" /\ fam' = fam /\ selected = Some code.
Proof.
  destruct selected as [[|c rest]|]; cbn.
  - split; [tauto|]. intros (Hne & _ & H). inversion H. now subst.
  - split.
    + intros [H|[]]. inversion H. subst. repeat split. discriminate.
    + intros (_ & -> & H). inversion H. now left.
  - split; [tauto|]. intros (_ & _ & H). discriminate H.
Qed.

Lemma getSelectedOptions_In (st : CardState) (fam code : string) :
  In {| optLabel := fam; optValue := code |} (getSelectedOptions st) <->
  code <> "" /\
  ((fam = "memory" /\ selectedMemory st = Some code) \/
   (fam = "storage" /\ selectedStorage st = Some code) \/
   (fam = "bandwidth" /\ selectedBandwidth st = Some code) \/
   (fam = "vrack" /\ selectedVrack st = Some code)).
Proof.
  unfold getSelectedOptions. rewrite !in_app_iff, !push_In. tauto.
Qed.

(** C8, as the specification states it, fails on the code: with bhs and rbx
    selected and the request for bhs rejected, the handler builds and sends
    one configuration, the one for bhs, for two selected datacenters. *)
Lemma two_datacenters_one_spec :
  let '(st, w) := Sample.confirmedWithTwoDatacenters in
  let result := handleAddToQueue Sample.ks1 (Sample.rejectAt "bhs") st w in
  selectedDatacenters st = ["bhs"; "rbx"] /\
  createTaskCalls w = [] /\
  List.map cfgName (createTaskCalls (snd result)) = ["ks-1 (bhs)"] /\
  length (createTaskCalls (snd result)) <> length (selectedDatacenters st).
Proof.
  vm_compute. repeat split; try reflexivity. discriminate.
Qed.

(** C8 (amended): with a non-empty datacenter selection whose requests all
    resolve, [handleAddToQueue] sends exactly one configuration per selected
    datacenter, in the order of the selection, each named
    "<server name> (<datacenter id>)" for its datacenter, for the server's
    plan code, and each carrying the same option list (the one selected when
    the handler started: a family is in it exactly when its selected code is
    not empty, and with that code) and the same fixed settings (quantity 1,
    one month, no operating system image, unlimited retries, 60 s interval).
    With an empty selection it sends nothing and shows the destructive
    validation toast "未选择数据中心". *)
Theorem one_task_per_datacenter
    (server : FormattedServer) (createTask : ServerConfig -> Settled)
    (st : CardState) (w : World) :
  let result := handleAddToQueue server createTask st w in
  (selectedDatacenters st <> [] ->
   (forall d, In d (selectedDatacenters st) ->
      createTask (serverConfigFor server (getSelectedOptions st) d) = Resolved) ->
   exists specs,
     createTaskCalls (snd result) = (createTaskCalls w ++ specs)%list /\
     Forall2
       (fun dc spec =>
          cfgName spec = name server +:+ " (" +:+ dc +:+ ")" /\
          cfgDatacenter spec = dc /\
          cfgPlanCode spec = planCode server /\
          cfgOptions spec = getSelectedOptions st /\
          (forall fam code,
             In {| optLabel := fam; optValue := code |} (cfgOptions spec) <->
             code <> "" /\
             ((fam = "memory" /\ selectedMemory st = Some code) \/
              (fam = "storage" /\ selectedStorage st = Some code) \/
              (fam = "bandwidth" /\ selectedBandwidth st = Some code) \/
              (fam = "vrack" /\ selectedVrack st = Some code))) /\
          cfgQuantity spec = 1%Z /\ cfgDuration spec = "P1M" /\
          cfgOs spec = "none_64.en" /\
          cfgMaxRetries spec = (-1)%Z /\ cfgTaskInterval spec = 60%Z)
       (selectedDatacenters st) specs) /\
  (selectedDatacenters st = [] ->
   createTaskCalls (snd result) = createTaskCalls w /\
   toasts (snd result) =
     (toasts w ++ [ {| title := "未选择数据中心";
                       description := "请至少选择一个数据中心添加到抢购队列";
                       variant := Some VariantDestructive |} ])%list /\
   navigations (snd result) = navigations w).
Proof.
  intros result; subst result. split.
  - intros Hne Hall.
    rewrite (handleAddToQueue_resolved server createTask st w Hne Hall).
    exists (List.map (serverConfigFor server (getSelectedOptions st))
              (selectedDatacenters st)).
    split.
    + cbn [snd navigate pushToast invalidateQueries createTaskCalls].
      match goal with
      | |- context [withRequests ?cfgs ?w0] =>
          destruct (withRequests_fields cfgs w0) as (-> & _)
      end.
      reflexivity.
    + clear. induction (selectedDatacenters st) as [|d rest IH];
        constructor; [|exact IH].
      cbn [serverConfigFor cfgName cfgDatacenter cfgPlanCode cfgOptions
           cfgQuantity cfgDuration cfgOs cfgMaxRetries cfgTaskInterval].
      repeat (split; [reflexivity|]).
      split; [intros fam code; apply getSelectedOptions_In|].
      repeat split; reflexivity.
  - intros Hempty.
    rewrite (handleAddToQueue_empty server createTask st w Hempty).
    cbn. auto.
Qed.

Lemma one_task_per_datacenter_witness :
  let st := fst Sample.confirmedWithTwoDatacenters in
  let w := snd Sample.confirmedWithTwoDatacenters in
  let sent :=
    createTaskCalls (snd (handleAddToQueue Sample.ks1 Sample.acceptAll st w)) in
  List.map cfgName sent = ["ks-1 (bhs)"; "ks-1 (rbx)"] /\
  List.map cfgDatacenter sent = ["bhs"; "rbx"] /\
  List.map cfgOptions sent
    = [ [ {| optLabel := "memory"; optValue := "32g" |} ];
        [ {| optLabel := "memory"; optValue := "32g" |} ] ] /\
  List.map cfgMaxRetries sent = [(-1)%Z; (-1)%Z] /\
  List.map cfgTaskInterval sent = [60%Z; 60%Z].
Proof.
  destruct (proj1 (one_task_per_datacenter Sample.ks1 Sample.acceptAll
                     (fst Sample.confirmedWithTwoDatacenters)
                     (snd Sample.confirmedWithTwoDatacenters)))
    as (specs & Hsent & Hspecs).
  - discriminate.
  - reflexivity.
  - cbv zeta. rewrite Hsent.
    change (createTaskCalls (snd Sample.confirmedWithTwoDatacenters))
      with (@nil ServerConfig).
    change (selectedDatacenters (fst Sample.confirmedWithTwoDatacenters))
      with ["bhs"; "rbx"] in Hspecs.
    inversion Hspecs as [|d1 s1 l1 r1 H1 Hrest]; subst.
    inversion Hrest as [|d2 s2 l2 r2 H2 Hnil]; subst.
    inversion Hnil; subst.
    destruct H1 as (Hn1 & Hd1 & _ & Ho1 & _ & _ & _ & _ & Hr1 & Hi1).
    destruct H2 as (Hn2 & Hd2 & _ & Ho2 & _ & _ & _ & _ & Hr2 & Hi2).
    cbn [List.map app].
    rewrite Hn1, Hn2, Hd1, Hd2, Ho1, Ho2, Hr1, Hr2, Hi1, Hi2.
    repeat split.
Defined.

(** ** Properties of the confirmation flags *)



Lemma reachable_run (server : FormattedServer)
    (JSON_parse : string -> option SavedConfig)
    (JSON_stringify : SavedConfig -> string) (events : list Event)
    (sw : CardState * World) :
  reachable server JSON_parse JSON_stringify sw ->
  reachable server JSON_parse JSON_stringify
    (run server JSON_stringify events sw).
Proof.
  revert sw; induction events as [|e events IH]; intros sw H; [exact H|].
  cbn [run fold_left]. apply IH. now constructor.
Qed.




(** ** Properties of [taskFormSchema] *)

Lemma isInteger_spec (q : Q) :
  TaskForm.isInteger q = true <-> exists z : Z, (q == inject_Z z)%Q.
Proof.
  unfold TaskForm.isInteger, Qeq. destruct q as [n d]. cbn [Qnum Qden inject_Z].
  rewrite Z.eqb_eq, Z.mod_divide by discriminate.
  split.
  - intros [z Hz]. exists z. lia.
  - intros [z Hz]. exists z. lia.
Qed.

Lemma app_nil_iff {A : Type} (l1 l2 : list A) :
  (l1 ++ l2)%list = [] <-> l1 = [] /\ l2 = [].
Proof.
  destruct l1; cbn; split; try tauto; try discriminate.
  intros [H _]. discriminate H.
Qed.

(** A number schema [int / min lo / max hi] raises no issue exactly on the
    integers of the closed range. *)
Lemma zNumber_int_range (lo hi : Z) (v : TaskForm.Value) :
  TaskForm.zNumber [TaskForm.int; TaskForm.min lo; TaskForm.max hi] v = []
  <-> exists (q : Q) (z : Z),
        v = TaskForm.Num (TaskForm.Finite q) /\ (q == inject_Z z)%Q /\
        (lo <= z <= hi)%Z.
Proof.
  split.
  - destruct v as [| | b | s | x | |]; try discriminate.
    destruct x as [q | | |]; try discriminate.
    cbn [TaskForm.zNumber List.map concat TaskForm.runCheck
         TaskForm.ltBound TaskForm.gtBound].
    rewrite !app_nil_iff. intros (Hint & Hmin & Hmax & _).
    destruct (TaskForm.isInteger q) eqn:Ei; [|discriminate].
    destruct (Qle_bool (inject_Z lo) q) eqn:Elo; [|discriminate].
    destruct (Qle_bool q (inject_Z hi)) eqn:Ehi; [|discriminate].
    apply isInteger_spec in Ei as [z Hz]. exists q, z.
    split; [reflexivity|]. split; [exact Hz|].
    apply Qle_bool_iff in Elo, Ehi. rewrite Hz in Elo, Ehi.
    rewrite <- Zle_Qle in Elo, Ehi. lia.
  - intros (q & z & -> & Hz & Hlo & Hhi).
    cbn [TaskForm.zNumber List.map concat TaskForm.runCheck
         TaskForm.ltBound TaskForm.gtBound].
    assert (Ei : TaskForm.isInteger q = true)
      by (apply isInteger_spec; now exists z).
    assert (Elo : Qle_bool (inject_Z lo) q = true)
      by (apply Qle_bool_iff; rewrite Hz, <- Zle_Qle; exact Hlo).
    assert (Ehi : Qle_bool q (inject_Z hi) = true)
      by (apply Qle_bool_iff; rewrite Hz, <- Zle_Qle; exact Hhi).
    now rewrite Ei, Elo, Ehi.
Qed.

(** C6: the retry part of [taskFormSchema] accepts [maxRetries] exactly
    when it is an integer from -1 to 100 and [taskInterval] exactly when it
    is an integer from 5 to 600; a form the schema accepts has both, and a
    form that is otherwise filled in correctly is accepted exactly when both
    hold.  In particular -2 and 101 retries and intervals of 4 and 601 are
    rejected, and -1 retries with an interval of 5 is accepted. *)
Theorem retry_policy_validation :
  (forall v,
     TaskForm.maxRetriesSchema v = [] <->
     exists (q : Q) (z : Z),
       v = TaskForm.Num (TaskForm.Finite q) /\ (q == inject_Z z)%Q /\
       (-1 <= z <= 100)%Z) /\
  (forall v,
     TaskForm.taskIntervalSchema v = [] <->
     exists (q : Q) (z : Z),
       v = TaskForm.Num (TaskForm.Finite q) /\ (q == inject_Z z)%Q /\
       (5 <= z <= 600)%Z) /\
  (forall input,
     TaskForm.accepts input = true ->
     TaskForm.maxRetriesSchema (TaskForm.maxRetries input) = [] /\
     TaskForm.taskIntervalSchema (TaskForm.taskInterval input) = []) /\
  (forall retries interval,
     TaskForm.accepts (TaskForm.filledForm retries interval) = true <->
     TaskForm.maxRetriesSchema retries = [] /\
     TaskForm.taskIntervalSchema interval = []) /\
  TaskForm.accepts
    (TaskForm.filledForm (TaskForm.integer (-2)) (TaskForm.integer 60)) = false /\
  TaskForm.accepts
    (TaskForm.filledForm (TaskForm.integer 101) (TaskForm.integer 60)) = false /\
  TaskForm.accepts
    (TaskForm.filledForm (TaskForm.integer 3) (TaskForm.integer 4)) = false /\
  TaskForm.accepts
    (TaskForm.filledForm (TaskForm.integer 3) (TaskForm.integer 601)) = false /\
  TaskForm.accepts
    (TaskForm.filledForm (TaskForm.integer (-1)) (TaskForm.integer 5)) = true /\
  TaskForm.accepts
    (TaskForm.filledForm (TaskForm.Num (TaskForm.Finite (5 # 2)))
       (TaskForm.integer 60)) = false.
Proof.
  split; [intros v; apply zNumber_int_range|].
  split; [intros v; apply zNumber_int_range|].
  split.
  { intros input. unfold TaskForm.accepts, TaskForm.taskFormSchema.
    destruct (_ ++ _)%list eqn:E; [|discriminate]. intros _.
    do 7 (apply app_nil_iff in E as [_ E]).
    now apply app_nil_iff in E. }
  split.
  { intros retries interval.
    unfold TaskForm.accepts, TaskForm.taskFormSchema, TaskForm.filledForm.
    cbn [TaskForm.name TaskForm.planCode TaskForm.datacenter TaskForm.quantity
         TaskForm.os TaskForm.duration TaskForm.options TaskForm.maxRetries
         TaskForm.taskInterval].
    change (match (TaskForm.maxRetriesSchema retries
                   ++ TaskForm.taskIntervalSchema interval)%list with
            | [] => true
            | _ => false
            end = true <->
            TaskForm.maxRetriesSchema retries = [] /\
            TaskForm.taskIntervalSchema interval = []).
    rewrite <- app_nil_iff.
    destruct (_ ++ _)%list; split; try reflexivity; discriminate. }
  vm_compute. repeat split.
Qed.

(** ** The datacenter selection *)

Lemma existsb_eqb_In (x : string) (l : list string) :
  existsb (String.eqb x) l = true <-> In x l.
Proof.
  rewrite existsb_exists. split.
  - intros (y & Hy & E). apply String.eqb_eq in E. now subst.
  - intros H. exists x. split; [exact H | apply String.eqb_refl].
Qed.

Lemma selectedDatacenters_toggle (dc : string) (st : CardState) :
  selectedDatacenters (toggleDatacenter dc st) =
    if existsb (String.eqb dc) (selectedDatacenters st)
    then List.filter (fun id => negb (String.eqb id dc)) (selectedDatacenters st)
    else (selectedDatacenters st ++ [dc])%list.
Proof. reflexivity. Qed.

(** X1: after [toggleDatacenter dc], [dc] is selected exactly when it was
    not selected before, and any other id is selected exactly when it was
    before. *)
Theorem toggleDatacenter_membership (dc other : string) (st : CardState) :
  In other (selectedDatacenters (toggleDatacenter dc st)) <->
  (other = dc /\ ~ In dc (selectedDatacenters st)) \/
  (other <> dc /\ In other (selectedDatacenters st)).
Proof.
  rewrite selectedDatacenters_toggle.
  destruct (existsb (String.eqb dc) (selectedDatacenters st)) eqn:E.
  - apply existsb_eqb_In in E. rewrite filter_In, negb_true_iff, String.eqb_neq.
    split.
    + intros [Hin Hne]. right. now split.
    + intros [[-> Hnot] | [Hne Hin]]; [now elim Hnot | now split].
  - assert (Hnot : ~ In dc (selectedDatacenters st)).
    { intros H. apply existsb_eqb_In in H. congruence. }
    rewrite in_app_iff. cbn. split.
    + intros [Hin | [<- | []]].
      * right. split; [|exact Hin]. intros ->. now elim Hnot.
      * left. now split.
    + intros [[-> _] | [_ Hin]]; [right; now left | now left].
Qed.

Lemma filter_not_In (dc : string) (l : list string) :
  ~ In dc l -> List.filter (fun id => negb (String.eqb id dc)) l = l.
Proof.
  induction l as [|x l IH]; intros Hnot; [reflexivity|].
  cbn. destruct (String.eqb x dc) eqn:E.
  - apply String.eqb_eq in E. elim Hnot. now left.
  - cbn. f_equal. apply IH. intros H. apply Hnot. now right.
Qed.

(** X2: toggling a datacenter that is not selected, twice, gives back the
    state there was: the id is appended and then removed again, and nothing
    else is written. *)
Theorem toggleDatacenter_twice (dc : string) (st : CardState) :
  ~ In dc (selectedDatacenters st) ->
  toggleDatacenter dc (toggleDatacenter dc st) = st.
Proof.
  intros Hnot.
  assert (E1 : selectedDatacenters (toggleDatacenter dc st)
               = (selectedDatacenters st ++ [dc])%list).
  { rewrite selectedDatacenters_toggle.
    destruct (existsb _ _) eqn:E; [|reflexivity].
    apply existsb_eqb_In in E. now elim Hnot. }
  assert (E2 : selectedDatacenters (toggleDatacenter dc (toggleDatacenter dc st))
               = selectedDatacenters st).
  { rewrite selectedDatacenters_toggle, E1.
    assert (Hin : existsb (String.eqb dc) (selectedDatacenters st ++ [dc]) = true).
    { apply existsb_eqb_In, in_app_iff. right. now left. }
    rewrite Hin, List.filter_app, (filter_not_In dc _ Hnot). cbn.
    rewrite String.eqb_refl. cbn. apply app_nil_r. }
  destruct st. unfold toggleDatacenter in *. cbn in *. now rewrite E2.
Qed.

Lemma toggleDatacenter_twice_witness :
  toggleDatacenter "gra" (toggleDatacenter "gra"
                            (fst Sample.confirmedWithTwoDatacenters))
    = fst Sample.confirmedWithTwoDatacenters.
Proof.
  apply (toggleDatacenter_twice "gra" (fst Sample.confirmedWithTwoDatacenters)).
  vm_compute. intros [H|[H|[]]]; discriminate H.
Defined.

Lemma NoDup_snoc (x : string) (l : list string) :
  List.NoDup l -> ~ In x l -> List.NoDup (l ++ [x]).
Proof.
  induction 1 as [|y l Hy Hnd IH]; intros Hx; cbn.
  - constructor; [intros [] | constructor].
  - constructor.
    + rewrite in_app_iff. intros [H | [<- | []]]; [now elim Hy|].
      apply Hx. now left.
    + apply IH. intros H. apply Hx. now right.
Qed.

Lemma toggleDatacenter_NoDup (dc : string) (st : CardState) :
  List.NoDup (selectedDatacenters st) ->
  List.NoDup (selectedDatacenters (toggleDatacenter dc st)).
Proof.
  intros Hnd. rewrite selectedDatacenters_toggle.
  destruct (existsb (String.eqb dc) (selectedDatacenters st)) eqn:E.
  - now apply List.NoDup_filter.
  - apply NoDup_snoc; [exact Hnd|].
    intros H. apply existsb_eqb_In in H. congruence.
Qed.

(** ** The submission, whatever the answers of the API *)

Lemma createTasks_world (server : FormattedServer)
    (createTask : ServerConfig -> Settled) (opts : list SelectedOption)
    (datacenters : list string) (w : World) :
  exists k,
    k <= length datacenters /\
    snd (createTasks server createTask opts datacenters w)
      = withRequests
          (List.map (serverConfigFor server opts) (firstn k datacenters)) w.
Proof.
  revert w; induction datacenters as [|d rest IH]; intros w.
  - exists 0. split; [cbn; lia | reflexivity].
  - cbn [createTasks].
    destruct (createTask (serverConfigFor server opts d)).
    + destruct (IH (recordCreateTask (serverConfigFor server opts d) w))
        as (k & Hk & E).
      exists (S k). split; [cbn; lia|]. rewrite E. reflexivity.
    + exists 1. split; [cbn; lia|]. destruct rest; reflexivity.
Qed.

(** The state [handleAddToQueue] leaves: the one before, or the one before
    with the datacenter selection cleared. *)
Lemma handleAddToQueue_state (server : FormattedServer)
    (createTask : ServerConfig -> Settled) (st : CardState) (w : World) :
  fst (handleAddToQueue server createTask st w) = setIsAddingToQueue false st \/
  fst (handleAddToQueue server createTask st w)
    = setIsAddingToQueue false (setSelectedDatacenters [] st).
Proof.
  unfold handleAddToQueue. destruct (Nat.eqb _ 0); [now left|].
  destruct (createTasks _ _ _ _ _) as [[|] w2]; [now right | now left].
Qed.

(** The requests [handleAddToQueue] sends and the world fields it leaves
    alone. *)
Lemma handleAddToQueue_world (server : FormattedServer)
    (createTask : ServerConfig -> Settled) (st : CardState) (w : World) :
  exists k,
    k <= length (selectedDatacenters st) /\
    createTaskCalls (snd (handleAddToQueue server createTask st w))
      = (createTaskCalls w
         ++ List.map (serverConfigFor server (getSelectedOptions st))
              (firstn k (selectedDatacenters st)))%list /\
    localStorage (snd (handleAddToQueue server createTask st w))
      = localStorage w /\
    checkCalls (snd (handleAddToQueue server createTask st w)) = checkCalls w.
Proof.
  unfold handleAddToQueue.
  destruct (Nat.eqb (length (selectedDatacenters st)) 0).
  { exists 0. cbn. rewrite app_nil_r. split; [lia | auto]. }
  match goal with
  | |- context [createTasks server createTask ?o ?d ?w0] =>
      destruct (createTasks_world server createTask o d w0) as (k & Hk & E);
      destruct (createTasks server createTask o d w0) as [r w2]
  end.
  cbn [snd] in E. subst w2. exists k.
  match goal with
  | |- context [withRequests ?cfgs ?w0] =>
      destruct (withRequests_fields cfgs w0) as (Hc & _ & Hl & Hch & _)
  end.
  split; [exact Hk|].
  destruct r; cbn [snd navigate pushToast invalidateQueries createTaskCalls
                   localStorage checkCalls] in *; rewrite Hc, Hl, Hch; auto.
Qed.

(** X3: whatever the API answers, the requests [handleAddToQueue] sends are
    the configurations of an initial segment of the selected datacenters, in
    the order of the selection (never more requests than selected
    datacenters, never one for a datacenter that is not selected); the
    handler changes neither flag of the confirmation, nor the selected
    options, nor the store. *)
Theorem submission_sends_initial_segment
    (server : FormattedServer) (createTask : ServerConfig -> Settled)
    (st : CardState) (w : World) :
  let result := handleAddToQueue server createTask st w in
  (exists k,
     k <= length (selectedDatacenters st) /\
     createTaskCalls (snd result)
       = (createTaskCalls w
          ++ List.map (serverConfigFor server (getSelectedOptions st))
               (firstn k (selectedDatacenters st)))%list) /\
  configConfirmed (fst result) = configConfirmed st /\
  configChanged (fst result) = configChanged st /\
  getSelectedOptions (fst result) = getSelectedOptions st /\
  localStorage (snd result) = localStorage w.
Proof.
  intros result; subst result.
  destruct (handleAddToQueue_world server createTask st w)
    as (k & Hk & Hcalls & Hstore & _).
  split; [now exists k|].
  destruct (handleAddToQueue_state server createTask st w) as [-> | ->];
    cbn; auto.
Qed.

(** X4: when at least one datacenter is selected and every request
    resolves, [handleAddToQueue] ends with the datacenter selection cleared
    (so the add button is disabled again) and everything else of the card as
    it was; it invalidates the 'tasks' query once, navigates to /queue once,
    and shows the "正在添加..." notice followed by the success toast that
    counts the datacenters. *)
Theorem successful_submission_clears_selection
    (server : FormattedServer) (createTask : ServerConfig -> Settled)
    (st : CardState) (w : World) :
  selectedDatacenters st <> [] ->
  (forall d, In d (selectedDatacenters st) ->
     createTask (serverConfigFor server (getSelectedOptions st) d) = Resolved) ->
  let result := handleAddToQueue server createTask st w in
  fst result = setIsAddingToQueue false (setSelectedDatacenters [] st) /\
  selectedDatacenters (fst result) = [] /\
  addToQueueDisabled (fst result) = true /\
  confirmationState (fst result) = confirmationState st /\
  invalidatedQueries (snd result) = (invalidatedQueries w ++ ["tasks"])%list /\
  navigations (snd result) = (navigations w ++ ["/queue"])%list /\
  toasts (snd result) =
    (toasts w ++
     [ {| title := "正在添加...";
          description := "正在将 " +:+ name server +:+ " 添加到抢购队列";
          variant := None |};
       {| title := "添加成功";
          description :=
            "已将 " +:+ name server +:+ " 添加到抢购队列，共 "
            +:+ pretty (length (selectedDatacenters st)) +:+ " 个数据中心";
          variant := Some VariantDefault |} ])%list.
Proof.
  intros Hne Hall result; subst result.
  rewrite (handleAddToQueue_resolved server createTask st w Hne Hall).
  cbn [fst snd].
  match goal with
  | |- context [withRequests ?cfgs ?w0] =>
      destruct (withRequests_fields cfgs w0) as (_ & Ht & _ & _ & Hi & Hn)
  end.
  cbn [navigate pushToast invalidateQueries toasts invalidatedQueries
       navigations] in *.
  rewrite Ht, Hi, Hn, <- app_assoc.
  repeat split; try reflexivity.
  unfold addToQueueDisabled. cbn. now destruct (configConfirmed st).
Qed.

Lemma successful_submission_clears_selection_witness :
  let st := fst Sample.confirmedWithTwoDatacenters in
  let w := snd Sample.confirmedWithTwoDatacenters in
  let result := handleAddToQueue Sample.ks1 Sample.acceptAll st w in
  selectedDatacenters (fst result) = [] /\
  addToQueueDisabled (fst result) = true /\
  navigations (snd result) = (navigations w ++ ["/queue"])%list.
Proof.
  pose proof (successful_submission_clears_selection Sample.ks1 Sample.acceptAll
                (fst Sample.confirmedWithTwoDatacenters)
                (snd Sample.confirmedWithTwoDatacenters)) as H.
  cbv zeta in H.
  destruct H as (_ & Hsel & Hdis & _ & _ & Hnav & _).
  - discriminate.
  - reflexivity.
  - cbv zeta. auto.
Defined.

(** ** Invariants of the mounted card *)

Lemma step_datacenters_NoDup (server : FormattedServer)
    (JSON_stringify : SavedConfig -> string) (e : Event)
    (sw : CardState * World) :
  List.NoDup (selectedDatacenters (fst sw)) ->
  List.NoDup (selectedDatacenters (fst (step server JSON_stringify e sw))).
Proof.
  destruct sw as [st w]. cbn [fst]. intros Hnd.
  destruct e as [family optionCode displayText | r | r | dc | | createTask];
    cbn [step].
  - destruct (handleSelectOption_frame family optionCode displayText st)
      as (_ & Hdcs & _). cbn zeta in Hdcs. cbn [fst]. now rewrite Hdcs.
  - destruct (isChecking st); [exact Hnd|]. destruct r; exact Hnd.
  - destruct (isChecking st); [exact Hnd|]. destruct r; exact Hnd.
  - now apply toggleDatacenter_NoDup.
  - constructor.
  - destruct (addToQueueDisabled st); [exact Hnd|].
    destruct (handleAddToQueue_state server createTask st w) as [-> | ->];
      [exact Hnd | constructor].
Qed.

Lemma reachable_NoDup (server : FormattedServer)
    (JSON_parse : string -> option SavedConfig)
    (JSON_stringify : SavedConfig -> string) (sw : CardState * World) :
  reachable server JSON_parse JSON_stringify sw ->
  List.NoDup (selectedDatacenters (fst sw)).
Proof.
  induction 1 as [storage | e sw Hreach IH].
  - cbn [fst]. destruct (mount_idle server JSON_parse storage) as (_ & _ & ->).
    constructor.
  - now apply step_datacenters_NoDup.
Qed.

Lemma length_append (a b : string) :
  String.length (a +:+ b) = String.length a + String.length b.
Proof.
  induction a as [|x a IH]; [reflexivity|].
  change (S (String.length (a +:+ b)) = S (String.length a + String.length b)).
  now rewrite IH.
Qed.

Lemma append_suffix_inj (a b suffix : string) :
  a +:+ suffix = b +:+ suffix -> a = b.
Proof.
  intros H.
  assert (Hlen : String.length a = String.length b).
  { apply (f_equal String.length) in H. rewrite !length_append in H. lia. }
  now destruct (append_same_length a b suffix suffix Hlen H).
Qed.

(** The task name tells the datacenters of one server apart. *)
Lemma cfgName_inj (server : FormattedServer) (opts : list SelectedOption)
    (d1 d2 : string) :
  cfgName (serverConfigFor server opts d1)
    = cfgName (serverConfigFor server opts d2) -> d1 = d2.
Proof.
  cbn [cfgName serverConfigFor]. intros H.
  apply String.app_inj in H. apply String.app_inj in H.
  now apply (append_suffix_inj d1 d2 ")").
Qed.

Lemma NoDup_firstn (k : nat) (l : list string) :
  List.NoDup l -> List.NoDup (firstn k l).
Proof.
  intros Hnd. revert k; induction Hnd as [|x l Hx Hnd IH]; intros [|k]; cbn;
    try constructor; [|apply IH].
  intros H. apply Hx. revert H. clear. revert k.
  induction l as [|y l IH]; intros [|k]; cbn; try tauto.
  intros [H|H]; [now left | right; now apply (IH k)].
Qed.

Lemma NoDup_map_inj {A B : Type} (f : A -> B) (l : list A) :
  (forall x y, f x = f y -> x = y) -> List.NoDup l -> List.NoDup (List.map f l).
Proof.
  intros Hinj. induction 1 as [|x l Hx Hnd IH]; cbn; constructor; [|exact IH].
  rewrite in_map_iff. intros (y & Hy & Hin). apply Hinj in Hy. now subst.
Qed.

(** X5: in every reachable state the datacenter selection has no duplicate;
    hence the requests of one submission, whatever the API answers, target
    pairwise different datacenters and carry pairwise different names. *)
Theorem reachable_selection_has_no_duplicate
    (server : FormattedServer) (JSON_parse : string -> option SavedConfig)
    (JSON_stringify : SavedConfig -> string) (sw : CardState * World) :
  reachable server JSON_parse JSON_stringify sw ->
  List.NoDup (selectedDatacenters (fst sw)) /\
  forall createTask : ServerConfig -> Settled,
    exists sent,
      createTaskCalls
        (snd (handleAddToQueue server createTask (fst sw) (snd sw)))
        = (createTaskCalls (snd sw) ++ sent)%list /\
      List.NoDup (List.map cfgDatacenter sent) /\
      List.NoDup (List.map cfgName sent).
Proof.
  intros Hreach. pose proof (reachable_NoDup _ _ _ _ Hreach) as Hnd.
  split; [exact Hnd|]. intros createTask.
  destruct (handleAddToQueue_world server createTask (fst sw) (snd sw))
    as (k & _ & Hcalls & _).
  eexists. split; [exact Hcalls|].
  pose proof (NoDup_firstn k _ Hnd) as Hk.
  rewrite !List.map_map. split.
  - cbn [cfgDatacenter serverConfigFor]. now rewrite List.map_id.
  - apply NoDup_map_inj; [|exact Hk]. intros x y. apply cfgName_inj.
Qed.

Lemma reachable_selection_has_no_duplicate_witness :
  List.NoDup (selectedDatacenters (fst Sample.confirmedWithTwoDatacenters)).
Proof.
  refine (proj1 (reachable_selection_has_no_duplicate Sample.ks1 Sample.parse
                   Sample.stringify Sample.confirmedWithTwoDatacenters _)).
  apply reachable_run. constructor.
Defined.

(** What one event does to the store. *)
Lemma step_store (server : FormattedServer)
    (JSON_stringify : SavedConfig -> string) (e : Event)
    (sw : CardState * World) :
  localStorage (snd (step server JSON_stringify e sw)) = localStorage (snd sw) \/
  (e = ClickConfirmConfig Resolved /\
   localStorage (snd (step server JSON_stringify e sw))
     = <[confirmedConfigKey server :=
           JSON_stringify (confirmedConfig (fst sw))]> (localStorage (snd sw))).
Proof.
  destruct sw as [st w]. cbn [fst snd].
  destruct e as [family optionCode displayText | r | r | dc | | createTask];
    cbn [step]; try (now left).
  - destruct (isChecking st); [now left|]. destruct r; [right | left]; now cbn.
  - destruct (isChecking st); [now left|]. destruct r; now left.
  - destruct (addToQueueDisabled st); [now left|]. left.
    now destruct (handleAddToQueue_world server createTask st w)
      as (_ & _ & _ & -> & _).
Qed.

(** X6: no run of events writes a store key other than the card's own
    [confirmedConfig_<planCode>]: every other key reads the same after the
    run as before. *)
Theorem other_store_keys_untouched
    (server : FormattedServer) (JSON_stringify : SavedConfig -> string)
    (events : list Event) (sw : CardState * World) (key : string) :
  key <> confirmedConfigKey server ->
  localStorage (snd (run server JSON_stringify events sw)) !! key
    = localStorage (snd sw) !! key.
Proof.
  intros Hkey. revert sw; induction events as [|e events IH]; intros sw;
    [reflexivity|].
  change (run server JSON_stringify (e :: events) sw)
    with (run server JSON_stringify events (step server JSON_stringify e sw)).
  rewrite IH.
  destruct (step_store server JSON_stringify e sw) as [-> | [_ ->]];
    [reflexivity|].
  now apply lookup_insert_ne.
Qed.

Lemma other_store_keys_untouched_witness :
  localStorage (snd Sample.confirmedWithTwoDatacenters) !! "lastChecked_24ska01"
    = localStorage (freshWorld ∅) !! "lastChecked_24ska01".
Proof.
  apply (other_store_keys_untouched Sample.ks1 Sample.stringify
           [ ClickConfirmConfig Resolved; ClickDatacenter "bhs";
             ClickDatacenter "rbx" ]
           (mount Sample.ks1 Sample.parse ∅, freshWorld ∅)
           "lastChecked_24ska01").
  discriminate.
Defined.

(** X7: the store is written by a configuration check that resolves and by
    nothing else: a run of events without one leaves the whole store as it
    was (option clicks, default checks, rejected checks, datacenter clicks
    and submissions persist nothing). *)
Theorem store_written_only_by_resolved_check
    (server : FormattedServer) (JSON_stringify : SavedConfig -> string)
    (events : list Event) (sw : CardState * World) :
  Forall (fun e => e <> ClickConfirmConfig Resolved) events ->
  localStorage (snd (run server JSON_stringify events sw))
    = localStorage (snd sw).
Proof.
  intros Hall. revert sw; induction Hall as [|e events He Hall IH]; intros sw;
    [reflexivity|].
  change (run server JSON_stringify (e :: events) sw)
    with (run server JSON_stringify events (step server JSON_stringify e sw)).
  rewrite IH.
  destruct (step_store server JSON_stringify e sw) as [-> | [E _]];
    [reflexivity | now elim He].
Qed.

Lemma store_written_only_by_resolved_check_witness :
  localStorage
    (snd (run Sample.ks1 Sample.stringify
            [ ClickOption "memory" "64g" "64 GB"; ClickConfirmDefault Resolved;
              ClickConfirmConfig Rejected; ClickDatacenter "gra";
              ClickAddToQueue Sample.acceptAll ]
            (mount Sample.ks1 Sample.parse ∅, freshWorld ∅)))
    = localStorage (snd (mount Sample.ks1 Sample.parse ∅, freshWorld ∅)).
Proof.
  apply (store_written_only_by_resolved_check Sample.ks1 Sample.stringify).
  repeat constructor; discriminate.
Defined.

(** ** Confirming, persisting and restoring *)

(** X8: a configuration check that resolves stores a snapshot from which the
    card is restored confirmed: when the platform's JSON functions read back
    what they wrote, mounting the card again on the resulting store gives the
    same selected codes and displayed texts, hence the same option list, with
    the confirmed flag set and the changed flag cleared; the datacenter
    selection is not restored. *)
Theorem confirmed_snapshot_restores
    (server : FormattedServer) (JSON_parse : string -> option SavedConfig)
    (JSON_stringify : SavedConfig -> string) (st : CardState) (w : World) :
  JSON_stringify (confirmedConfig st) <> "" ->
  JSON_parse (JSON_stringify (confirmedConfig st)) = Some (confirmedConfig st) ->
  let w' := snd (handleCheckConfigAvailability server JSON_stringify Resolved
                   st w) in
  let st' := mount server JSON_parse (localStorage w') in
  selectedMemory st' = selectedMemory st /\
  selectedStorage st' = selectedStorage st /\
  selectedBandwidth st' = selectedBandwidth st /\
  selectedVrack st' = selectedVrack st /\
  displayedMemory st' = displayedMemory st /\
  displayedStorage st' = displayedStorage st /\
  displayedBandwidth st' = displayedBandwidth st /\
  displayedVrack st' = displayedVrack st /\
  getSelectedOptions st' = getSelectedOptions st /\
  configConfirmed st' = true /\ configChanged st' = false /\
  selectedDatacenters st' = [].
Proof.
  intros Hne Hparse w' st'.
  assert (E : st' = restoreSavedConfig (confirmedConfig st)
                      (initialState server)).
  { subst st' w'. unfold mount, restoreEffect.
    cbn [handleCheckConfigAvailability snd pushToast setItem recordCheck
         localStorage].
    rewrite lookup_insert_eq. rewrite (truthy_nonempty _ Hne).
    cbn [mbind option_bind]. now rewrite Hparse. }
  rewrite E. cbn. auto 20.
Qed.

Lemma confirmed_snapshot_restores_witness :
  let st := mount Sample.ks1 Sample.parse ∅ in
  let w' := snd (handleCheckConfigAvailability Sample.ks1 Sample.stringify
                   Resolved st (freshWorld ∅)) in
  let st' := mount Sample.ks1 Sample.parse (localStorage w') in
  getSelectedOptions st' = getSelectedOptions st /\
  configConfirmed st' = true /\ configChanged st' = false.
Proof.
  pose proof (confirmed_snapshot_restores Sample.ks1 Sample.parse
                Sample.stringify (mount Sample.ks1 Sample.parse ∅)
                (freshWorld ∅)) as H.
  cbv zeta in H.
  destruct H as (_ & _ & _ & _ & _ & _ & _ & _ & Hopts & Hc & Hch & _).
  - discriminate.
  - reflexivity.
  - cbv zeta. auto.
Defined.

(** What the default check does: it asks without options and persists
    nothing; resolved, it sets the confirmed flag and leaves the changed
    flag; rejected, it leaves the state and shows no toast. *)
Lemma handleCheckDefaultAvailability_effect
    (server : FormattedServer) (checkResult : Settled) (st : CardState)
    (w : World) :
  let after := handleCheckDefaultAvailability server checkResult st w in
  localStorage (snd after) = localStorage w /\
  checkCalls (snd after) = (checkCalls w ++ [(planCode server, None)])%list /\
  configChanged (fst after) = configChanged st /\
  match checkResult with
  | Resolved => configConfirmed (fst after) = true
  | Rejected =>
      fst after = setIsChecking false st /\ toasts (snd after) = toasts w
  end.
Proof. destruct checkResult; cbn; auto 10. Qed.

(** What one event that is not a resolved check does to the confirmed
    flag. *)
Lemma step_keeps_unconfirmed (server : FormattedServer)
    (JSON_stringify : SavedConfig -> string) (e : Event)
    (sw : CardState * World) :
  e <> ClickConfirmConfig Resolved -> e <> ClickConfirmDefault Resolved ->
  configConfirmed (fst (step server JSON_stringify e sw))
    = configConfirmed (fst sw).
Proof.
  destruct sw as [st w]. cbn [fst]. intros Hconfig Hdefault.
  destruct e as [family optionCode displayText | r | r | dc | | createTask];
    cbn [step].
  - now destruct (handleSelectOption_frame family optionCode displayText st)
      as (Hconf & _).
  - destruct (isChecking st); [reflexivity|].
    destruct r; [now elim Hconfig | reflexivity].
  - destruct (isChecking st); [reflexivity|].
    destruct r; [now elim Hdefault | reflexivity].
  - reflexivity.
  - reflexivity.
  - destruct (addToQueueDisabled st); [reflexivity|].
    now destruct (handleAddToQueue_state server createTask st w) as [-> | ->].
Qed.

(** X9: only a check that resolves confirms the card.  A card that is not
    confirmed stays unconfirmed, and its add-to-queue button stays disabled,
    through every sequence of events in which neither a configuration check
    nor a default check resolves (option clicks, datacenter clicks, rejected
    checks, clicks on the disabled button). *)
Theorem confirmation_needs_resolved_check
    (server : FormattedServer) (JSON_stringify : SavedConfig -> string)
    (events : list Event) (sw : CardState * World) :
  configConfirmed (fst sw) = false ->
  Forall (fun e => e <> ClickConfirmConfig Resolved /\
                   e <> ClickConfirmDefault Resolved) events ->
  configConfirmed (fst (run server JSON_stringify events sw)) = false /\
  addToQueueDisabled (fst (run server JSON_stringify events sw)) = true /\
  createTaskCalls (snd (run server JSON_stringify events sw))
    = createTaskCalls (snd sw).
Proof.
  intros Hconf Hall. revert sw Hconf.
  induction Hall as [|e events [He1 He2] Hall IH]; intros sw Hconf.
  - cbn [run fold_left]. split; [exact Hconf|]. split; [|reflexivity].
    unfold addToQueueDisabled. now rewrite Hconf.
  - change (run server JSON_stringify (e :: events) sw)
      with (run server JSON_stringify events (step server JSON_stringify e sw)).
    assert (Hstep : configConfirmed (fst (step server JSON_stringify e sw))
                    = false).
    { now rewrite (step_keeps_unconfirmed server JSON_stringify e sw He1 He2). }
    destruct (IH _ Hstep) as (H1 & H2 & H3).
    split; [exact H1|]. split; [exact H2|]. rewrite H3.
    destruct sw as [st w]. cbn [fst snd] in *.
    destruct e as [family optionCode displayText | r | r | dc | | createTask];
      cbn [step snd]; try reflexivity.
    + destruct (isChecking st); [reflexivity|]. now destruct r.
    + destruct (isChecking st); [reflexivity|]. now destruct r.
    + assert (Hdis : addToQueueDisabled st = true)
        by (unfold addToQueueDisabled; now rewrite Hconf).
      now rewrite Hdis.
Qed.

Lemma confirmation_needs_resolved_check_witness :
  let sw := run Sample.ks1 Sample.stringify
              [ ClickOption "memory" "64g" "64 GB"; ClickConfirmConfig Rejected;
                ClickDatacenter "gra"; ClickAddToQueue Sample.acceptAll ]
              (mount Sample.ks1 Sample.parse ∅, freshWorld ∅) in
  configConfirmed (fst sw) = false /\
  addToQueueDisabled (fst sw) = true /\
  createTaskCalls (snd sw) = [].
Proof.
  apply (confirmation_needs_resolved_check Sample.ks1 Sample.stringify
           [ ClickOption "memory" "64g" "64 GB"; ClickConfirmConfig Rejected;
             ClickDatacenter "gra"; ClickAddToQueue Sample.acceptAll ]
           (mount Sample.ks1 Sample.parse ∅, freshWorld ∅)).
  - reflexivity.
  - repeat constructor; discriminate.
Defined.

(** ** The option list *)

(** X10: [getSelectedOptions] lists the families in the fixed order memory,
    storage, bandwidth, vrack, each at most once (so at most four options),
    never with an empty code; a family is listed exactly when its selected
    code is a non-empty string, and with that code. *)
Theorem getSelectedOptions_shape (st : CardState) :
  List.map optLabel (getSelectedOptions st)
    `sublist_of` ["memory"; "storage"; "bandwidth"; "vrack"] /\
  (forall fam code,
     In {| optLabel := fam; optValue := code |} (getSelectedOptions st) <->
     code <> "" /\
     ((fam = "memory" /\ selectedMemory st = Some code) \/
      (fam = "storage" /\ selectedStorage st = Some code) \/
      (fam = "bandwidth" /\ selectedBandwidth st = Some code) \/
      (fam = "vrack" /\ selectedVrack st = Some code))).
Proof.
  split.
  - unfold getSelectedOptions.
    destruct (selectedMemory st) as [[|? ?]|];
      destruct (selectedStorage st) as [[|? ?]|];
      destruct (selectedBandwidth st) as [[|? ?]|];
      destruct (selectedVrack st) as [[|? ?]|]; cbn;
      repeat (first [apply sublist_nil | apply sublist_skip
                    | apply sublist_cons]).
  - intros fam code. unfold getSelectedOptions.
    rewrite !in_app_iff, !push_In. tauto.
Qed.

(** ** The default selection *)

(** X11: a card mounted without a stored snapshot is unconfirmed and
    preselects, in each family, an option the server offers whose text is the
    server's own specification of that family, or nothing when no offered
    option has that text; the displayed texts are the server's
    specifications, except that the vRack line reads "无vRack" when nothing
    is preselected for it. *)
Theorem mount_without_snapshot_selects_offered_defaults
    (server : FormattedServer) (JSON_parse : string -> option SavedConfig)
    (store : gmap string string) :
  store !! confirmedConfigKey server = None ->
  let st := mount server JSON_parse store in
  let preselected selected options specification :=
    match selected with
    | Some c =>
        exists opt, In opt options /\ code opt = c /\
                    formatted opt = specification
    | None => forall opt, In opt options -> formatted opt <> specification
    end in
  preselected (selectedMemory st) (memoryOptions server) (memory server) /\
  preselected (selectedStorage st) (storageOptions server) (storage server) /\
  preselected (selectedBandwidth st) (bandwidthOptions server)
    (bandwidth server) /\
  preselected (selectedVrack st) (vrackOptions server) (vrack server) /\
  displayedMemory st = memory server /\
  displayedStorage st = storage server /\
  displayedBandwidth st = bandwidth server /\
  displayedVrack st
    = match selectedVrack st with
      | Some _ => vrack server
      | None => "无vRack"
      end /\
  confirmationState st = Default /\
  selectedDatacenters st = [].
Proof.
  intros Hnone st preselected.
  assert (E : st = selectDefaults server (initialState server)).
  { subst st. unfold mount, restoreEffect. now rewrite Hnone. }
  destruct (selectDefaults_fields server (initialState server))
    as (Hm & Hs & Hb & Hv & Hdm & Hds & Hdb & Hdv).
  destruct (selectDefaults_frame server (initialState server))
    as (Hc & Hch & Hdcs & _).
  cbv zeta in *. rewrite <- E in *.
  assert (Hpre : forall options specification,
            preselected
              match findDefaultOption options specification with
              | Some d => Some (code d)
              | None => None
              end options specification).
  { intros options specification. subst preselected. cbv beta.
    destruct (findDefaultOption options specification) as [d|] eqn:Ef.
    - apply findDefaultOption_Some in Ef as [Hin Hf]. now exists d.
    - now apply findDefaultOption_None. }
  rewrite Hm, Hs, Hb, Hdm, Hds, Hdb, Hdv.
  repeat (split; [solve [apply Hpre | reflexivity]|]).
  split; [rewrite Hv; apply Hpre|].
  split; [reflexivity|]. split; [reflexivity|]. split; [reflexivity|].
  split.
  - rewrite Hv. cbn.
    now destruct (findDefaultOption (vrackOptions server) (vrack server)).
  - unfold confirmationState. rewrite Hc, Hch, Hdcs. now cbn.
Qed.

Lemma mount_without_snapshot_selects_offered_defaults_witness :
  selectedMemory (mount Sample.ks1 Sample.parse ∅) = Some "32g" /\
  displayedVrack (mount Sample.ks1 Sample.parse ∅) = "无vRack" /\
  confirmationState (mount Sample.ks1 Sample.parse ∅) = Default.
Proof.
  pose proof (mount_without_snapshot_selects_offered_defaults Sample.ks1
                Sample.parse ∅ eq_refl) as H.
  cbv zeta in H.
  destruct H as (_ & _ & _ & _ & _ & _ & _ & Hv & Hc & _).
  split; [reflexivity|]. split; [exact Hv | exact Hc].
Defined.

(** ** The classes of [resolve] and the tiles of the grid *)

Lemma resolve_out_of_stock (s : string) :
  Js.includes s "unavailable" || Js.includes s "out" || Js.includes s "none"
    = true ->
  s <> "" /\ s <> "unknown" /\
  resolve (Some s) =
    {| availability := unavailable; icon := XCircleRed; label := "无货" |}.
Proof.
  intros Hinc.
  assert (Hne : s <> "") by (intros ->; vm_compute in Hinc; discriminate).
  assert (Hunk : s <> "unknown")
    by (intros ->; vm_compute in Hinc; discriminate).
  split; [exact Hne|]. split; [exact Hunk|].
  unfold resolve. rewrite (truthy_nonempty s Hne).
  apply String.eqb_neq in Hunk. rewrite Hunk. cbn [negb orb].
  destruct (String.eqb s "unavailable"); [reflexivity|]. now rewrite Hinc.
Qed.

Lemma resolve_in_stock (s : string) :
  s <> "" -> s <> "unknown" -> NoNegativeKeyword s ->
  availability (resolve (Some s)) = available \/
  availability (resolve (Some s)) = soon.
Proof.
  intros Hne Hunk Hneg. rewrite (resolve_positive s Hne Hunk Hneg).
  destruct (hourMatch s) as [hours|].
  - destruct (Js.parseInt hours <=? 1)%N; [now left | now right].
  - destruct (Js.includes (Js.toLowerCase s) "high"); [now left|].
    destruct (Js.includes (Js.toLowerCase s) "low"); [now right|].
    destruct (String.eqb s "available"); now left.
Qed.

Lemma negative_keyword_check (s : string) :
  Js.includes s "unavailable" || Js.includes s "out" || Js.includes s "none"
    = true
  <-> Contains "unavailable" s \/ Contains "out" s \/ Contains "none" s.
Proof. rewrite !orb_true_iff, !includes_spec. tauto. Qed.

(** X12: the classes of [resolve] partition the inputs.  The result is
    [unknown] exactly for an absent value, the empty string and 'unknown';
    it is [unavailable] exactly for the strings that contain 'unavailable',
    'out' or 'none' as written; every other string is [available] or
    [soon]. *)
Theorem resolve_classes (raw : option string) :
  (availability (resolve raw) = unknown <->
     raw = None \/ raw = Some "" \/ raw = Some "unknown") /\
  (availability (resolve raw) = unavailable <->
     exists s, raw = Some s /\
       (Contains "unavailable" s \/ Contains "out" s \/ Contains "none" s)) /\
  (availability (resolve raw) = available \/ availability (resolve raw) = soon
   <-> exists s, raw = Some s /\ s <> "" /\ s <> "unknown" /\
                 NoNegativeKeyword s).
Proof.
  destruct raw as [s|].
  2:{ cbn. repeat split; try tauto; try discriminate.
      - intros (s & H & _). discriminate H.
      - intros [H|H]; discriminate H.
      - intros (s & H & _). discriminate H. }
  destruct (Js.includes s "unavailable" || Js.includes s "out"
            || Js.includes s "none") eqn:Hinc.
  - destruct (resolve_out_of_stock s Hinc) as (Hne & Hunk & ->).
    assert (Hneg : ~ NoNegativeKeyword s).
    { intros H. apply NoNegativeKeyword_check in H. congruence. }
    apply negative_keyword_check in Hinc.
    cbn [availability]. repeat split; try discriminate.
    + intros [H|[H|H]]; inversion H; congruence.
    + intros _. now exists s.
    + intros [H|H]; discriminate H.
    + intros (s' & H & _ & _ & H'). inversion H. now subst.
  - assert (Hpos : ~ (Contains "unavailable" s \/ Contains "out" s
                      \/ Contains "none" s)).
    { intros H. apply negative_keyword_check in H. congruence. }
    apply NoNegativeKeyword_check in Hinc.
    destruct (string_dec s "") as [->|Hne].
    { cbn. repeat split; try tauto; try discriminate.
      - intros (s & H & Hn). inversion H. subst. now elim Hpos.
      - intros [H|H]; discriminate H.
      - intros (s & H & Hn & _). inversion H. now subst. }
    destruct (string_dec s "unknown") as [->|Hunk].
    { cbn. repeat split; try tauto; try discriminate.
      - intros (s & H & Hn). inversion H. subst. now elim Hpos.
      - intros [H|H]; discriminate H.
      - intros (s & H & _ & Hn & _). inversion H. now subst. }
    pose proof (resolve_in_stock s Hne Hunk Hinc) as Hin.
    repeat split.
    + intros H. destruct Hin as [Hin|Hin]; congruence.
    + intros [H|[H|H]]; inversion H; congruence.
    + intros H. destruct Hin as [Hin|Hin]; congruence.
    + intros (s' & H & Hn). inversion H. subst. now elim Hpos.
    + intros _. now exists s.
    + intros _. exact Hin.
Qed.

Lemma lowerAscii_idempotent (c : ascii) :
  Js.lowerAscii (Js.lowerAscii c) = Js.lowerAscii c.
Proof. destruct c as [[] [] [] [] [] [] [] []]; reflexivity. Qed.

Lemma toLowerCase_idempotent (s : string) :
  Js.toLowerCase (Js.toLowerCase s) = Js.toLowerCase s.
Proof.
  induction s as [|c s IH]; [reflexivity|].
  cbn [Js.toLowerCase]. now rewrite lowerAscii_idempotent, IH.
Qed.

(** X13: availability stored under a key that is not in lower case is never
    read: the lookup key is the lower-cased datacenter id, so an entry under
    a key with an upper-case letter changes neither the availability shown
    for any datacenter id nor whether the datacenter counts as checked. *)
Theorem upper_case_key_is_never_read
    (server : FormattedServer) (checkedServers : list string)
    (datacenterAvailability : gmap string (gmap string string))
    (serverAvailability : gmap string string)
    (key value datacenterId : string) :
  Js.toLowerCase key <> key ->
  let withEntry :=
    <[planCode server := <[key := value]> serverAvailability]>
      datacenterAvailability in
  let without :=
    <[planCode server := serverAvailability]> datacenterAvailability in
  getAvailabilityInfo withEntry (planCode server) datacenterId
    = getAvailabilityInfo without (planCode server) datacenterId /\
  hasBeenCheckedAvailability server withEntry checkedServers datacenterId
    = hasBeenCheckedAvailability server without checkedServers datacenterId.
Proof.
  intros Hkey withEntry without. subst withEntry without.
  assert (Hne : key <> Js.toLowerCase datacenterId).
  { intros ->. now rewrite toLowerCase_idempotent in Hkey. }
  unfold getAvailabilityInfo, hasBeenCheckedAvailability.
  rewrite !lookup_insert_eq. now rewrite (lookup_insert_ne _ _ _ _ Hne).
Qed.

Lemma upper_case_key_is_never_read_witness :
  getAvailabilityInfo
    (<["24ska01" := <["GRA" := "1H-high"]> ∅]> ∅) "24ska01" "GRA"
  = getAvailabilityInfo (<["24ska01" := ∅]> ∅) "24ska01" "GRA".
Proof.
  refine (proj1 (upper_case_key_is_never_read Sample.ks1 [] ∅ ∅
                   "GRA" "1H-high" "GRA" _)).
  discriminate.
Defined.

Lemma isChecked_In (server : FormattedServer) (checkedServers : list string) :
  isChecked server checkedServers = true <-> In (planCode server) checkedServers.
Proof. apply existsb_eqb_In. Qed.

(** The status text of a tile, by the raw string the tile reads. *)
Lemma datacenterTile_text
    (server : FormattedServer)
    (datacenterAvailability : gmap string (gmap string string))
    (checkedServers selected : list string) (dcCode : string) :
  statusText
    (datacenterTile server datacenterAvailability checkedServers selected dcCode)
  = match datacenterAvailability !! planCode server
          ≫= (fun serverAvailability =>
                serverAvailability !! Js.toLowerCase dcCode) with
    | Some (String c rest) =>
        if isChecked server checkedServers then
          match availability (resolve (Some (String c rest))) with
          | available | soon => "有货"
          | unavailable => "无货"
          | unknown => "未知"
          end
        else "未检查"
    | _ => "未检查"
    end.
Proof.
  unfold datacenterTile, hasBeenCheckedAvailability, getAvailabilityInfo.
  destruct (datacenterAvailability !! planCode server) as [sa|];
    cbn [mbind option_bind].
  2:{ now destruct (existsb _ selected). }
  destruct (sa !! Js.toLowerCase dcCode) as [[|c rest]|];
    destruct (isChecked server checkedServers); cbn [Js.truthy andb];
    try (now destruct (existsb _ selected)).
  destruct (availability (resolve (Some (String c rest))));
    now destruct (existsb _ selected).
Qed.

(** X14: what a tile of the datacenter grid says, for a plan code and a
    datacenter code on which the availability reads are reads of own
    properties (neither the plan code nor the lower-cased datacenter code
    names a member of [Object.prototype]) and for an ASCII datacenter code.
    A tile has a status other than "未检查" only when the plan is among the
    checked servers and the availability data hold a non-empty string for the
    lower-cased datacenter code.  Then it says "未知" exactly for 'unknown',
    "无货" exactly when the string contains 'unavailable', 'out' or 'none' as
    written, and "有货" for every other string (whether [resolve] calls it
    available or soon).  Selecting the datacenter never changes the text. *)
Theorem datacenter_tile_status
    (server : FormattedServer)
    (datacenterAvailability : gmap string (gmap string string))
    (checkedServers selected : list string) (dcCode : string) :
  OwnPropertyKey (planCode server) ->
  IsAscii dcCode ->
  OwnPropertyKey (Js.toLowerCase dcCode) ->
  let text :=
    statusText (datacenterTile server datacenterAvailability checkedServers
                  selected dcCode) in
  let reads (s : string) :=
    In (planCode server) checkedServers /\ s <> "" /\
    exists serverAvailability,
      datacenterAvailability !! planCode server = Some serverAvailability /\
      serverAvailability !! Js.toLowerCase dcCode = Some s in
  (text <> "未检查" <-> exists s, reads s) /\
  (text = "未知" <-> reads "unknown") /\
  (text = "无货" <->
     exists s, reads s /\
       (Contains "unavailable" s \/ Contains "out" s \/ Contains "none" s)) /\
  (text = "有货" <->
     exists s, reads s /\ s <> "unknown" /\ NoNegativeKeyword s) /\
  text = statusText (datacenterTile server datacenterAvailability
                       checkedServers [] dcCode).
Proof.
  intros _ _ _ text reads. subst text. rewrite !datacenterTile_text.
  assert (Hunread : (forall s, ~ reads s) ->
    (("未检查" : string) <> "未检查" <-> exists s, reads s) /\
    (("未检查" : string) = "未知" <-> reads "unknown") /\
    (("未检查" : string) = "无货" <->
       exists s, reads s /\
         (Contains "unavailable" s \/ Contains "out" s \/ Contains "none" s)) /\
    (("未检查" : string) = "有货" <->
       exists s, reads s /\ s <> "unknown" /\ NoNegativeKeyword s) /\
    ("未检查" : string) = "未检查").
  { intros Hno.
    split; [split | split; [split | split; [split | split; [split|]]]].
    - intros H. now elim H.
    - intros (s & H). now elim (Hno s).
    - discriminate.
    - intros H. now elim (Hno "unknown").
    - discriminate.
    - intros (s & H & _). now elim (Hno s).
    - discriminate.
    - intros (s & H & _). now elim (Hno s).
    - reflexivity. }
  destruct (datacenterAvailability !! planCode server) as [sa|] eqn:Em;
    cbn [mbind option_bind].
  2:{ apply Hunread. intros s (_ & _ & sa & H & _). discriminate H. }
  destruct (sa !! Js.toLowerCase dcCode) as [[|c rest]|] eqn:Es.
  { apply Hunread. intros s (_ & Hne & sa' & H & H').
    inversion H; subst. rewrite Es in H'. inversion H'. congruence. }
  2:{ apply Hunread. intros s (_ & _ & sa' & H & H').
      inversion H; subst. rewrite Es in H'. discriminate H'. }
  destruct (isChecked server checkedServers) eqn:Ec.
  2:{ apply Hunread. intros s (Hin & _). apply isChecked_In in Hin.
      congruence. }
  apply isChecked_In in Ec.
  set (s0 := String c rest) in *.
  assert (Hreads : reads s0).
  { split; [exact Ec|]. split; [discriminate|]. now exists sa. }
  assert (Honly : forall s, reads s -> s = s0).
  { intros s (_ & _ & sa' & H & H'). inversion H; subst sa'.
    rewrite Es in H'. now inversion H'. }
  destruct (Js.includes s0 "unavailable" || Js.includes s0 "out"
            || Js.includes s0 "none") eqn:Hinc.
  - destruct (resolve_out_of_stock s0 Hinc) as (_ & Hunk & ->).
    assert (Hneg : ~ NoNegativeKeyword s0).
    { intros H. apply NoNegativeKeyword_check in H. congruence. }
    apply negative_keyword_check in Hinc. cbn [availability].
    split; [split | split; [split | split; [split | split; [split|]]]].
    + intros _. now exists s0.
    + intros _. discriminate.
    + discriminate.
    + intros H. apply Honly in H. congruence.
    + intros _. now exists s0.
    + reflexivity.
    + discriminate.
    + intros (s & H & _ & Hn). apply Honly in H. subst s. now elim Hneg.
    + reflexivity.
  - assert (Hpos : ~ (Contains "unavailable" s0 \/ Contains "out" s0
                      \/ Contains "none" s0)).
    { intros H. apply negative_keyword_check in H. congruence. }
    apply NoNegativeKeyword_check in Hinc.
    destruct (string_dec s0 "unknown") as [E|Hunk].
    + assert (Hav : availability (resolve (Some s0)) = unknown)
        by now rewrite E.
      rewrite Hav.
      split; [split | split; [split | split; [split | split; [split|]]]].
      * intros _. now exists s0.
      * intros _. discriminate.
      * intros _. now rewrite <- E.
      * reflexivity.
      * discriminate.
      * intros (s & H & Hc). apply Honly in H. subst s. now elim Hpos.
      * discriminate.
      * intros (s & H & Hn & _). apply Honly in H. subst s. now elim Hn.
      * reflexivity.
    + assert (Hne : s0 <> "") by discriminate.
      assert (Htext :
        match availability (resolve (Some s0)) with
        | available | soon => "有货"
        | unavailable => "无货"
        | unknown => "未知"
        end = "有货").
      { now destruct (resolve_in_stock s0 Hne Hunk Hinc) as [-> | ->]. }
      rewrite Htext.
      split; [split | split; [split | split; [split | split; [split|]]]].
      * intros _. now exists s0.
      * intros _. discriminate.
      * discriminate.
      * intros H. apply Honly in H. congruence.
      * discriminate.
      * intros (s & H & Hc). apply Honly in H. subst s. now elim Hpos.
      * intros _. now exists s0.
      * reflexivity.
      * reflexivity.
Qed.

Lemma datacenter_tile_status_witness :
  let availabilityData : gmap string (gmap string string) :=
    {[ "24ska01" := {[ "gra" := "1H-high"; "bhs" := "unavailable";
                        "rbx" := "unknown" ]} ]} in
  let text dcCode :=
    statusText (datacenterTile Sample.ks1 availabilityData ["24ska01"] []
                  dcCode) in
  text "GRA" = "有货" /\ text "BHS" = "无货" /\ text "RBX" = "未知" /\
  text "SBG" = "未检查".
Proof.
  cbv zeta.
  assert (Hplan : OwnPropertyKey (planCode Sample.ks1)).
  { vm_compute. intuition discriminate. }
  assert (Hown : forall dc, In dc ["gra"; "bhs"; "rbx"; "sbg"] ->
                            OwnPropertyKey dc).
  { intros dc Hdc Hin. cbn in Hdc, Hin.
    intuition (subst; discriminate). }
  pose proof (fun dc Hascii Hkey =>
    datacenter_tile_status Sample.ks1
      {[ "24ska01" := {[ "gra" := "1H-high"; "bhs" := "unavailable";
                          "rbx" := "unknown" ]} ]}
      ["24ska01"] [] dc Hplan Hascii Hkey) as H.
  cbv zeta in H.
  destruct (H "GRA" eq_refl (Hown "gra" ltac:(cbn; tauto)))
    as (_ & _ & _ & Hgra & _).
  destruct (H "BHS" eq_refl (Hown "bhs" ltac:(cbn; tauto)))
    as (_ & _ & Hbhs & _ & _).
  destruct (H "RBX" eq_refl (Hown "rbx" ltac:(cbn; tauto)))
    as (_ & Hrbx & _ & _ & _).
  split; [|split; [|split]].
  - apply Hgra. exists "1H-high". split; [|split; [discriminate|]].
    + split; [now left|]. split; [discriminate|]. eexists. split; reflexivity.
    + apply NoNegativeKeyword_check. reflexivity.
  - apply Hbhs. exists "unavailable". split.
    + split; [now left|]. split; [discriminate|]. eexists. split; reflexivity.
    + left. now exists "", "".
  - apply Hrbx. split; [now left|]. split; [discriminate|].
    eexists. split; reflexivity.
  - reflexivity.
Defined.

(** ** The options of the add-task form *)

Lemma isOptionSelected_app (l1 l2 : list AddTaskForm.AddonOption)
    (fam code : string) :
  AddTaskForm.isOptionSelected (l1 ++ l2) fam code
  = AddTaskForm.isOptionSelected l1 fam code
    || AddTaskForm.isOptionSelected l2 fam code.
Proof. apply existsb_app. Qed.

Lemma isOptionSelected_filter (keep : AddTaskForm.AddonOption -> bool)
    (l : list AddTaskForm.AddonOption) (fam code : string) :
  AddTaskForm.isOptionSelected (List.filter keep l) fam code
  = existsb (fun opt => keep opt
                        && (String.eqb (AddTaskForm.family opt) fam
                            && String.eqb (AddTaskForm.optionCode opt) code)) l.
Proof.
  unfold AddTaskForm.isOptionSelected.
  induction l as [|o l IH]; [reflexivity|].
  cbn [List.filter existsb]. destruct (keep o); cbn [existsb andb];
    now rewrite IH.
Qed.

(** X15: what [isOptionSelected] answers after [toggleOption].  Checking an
    option makes it selected; unchecking makes it not selected, however many
    copies the list held, and leaves the answer for every other
    family/option pair as it was. *)
Theorem toggleOption_isOptionSelected
    (selectedServer : option AddTaskForm.Plan)
    (selectedOptions : list AddTaskForm.AddonOption)
    (fam code fam' code' : string) :
  AddTaskForm.isOptionSelected
    (AddTaskForm.toggleOption selectedServer selectedOptions fam code true)
    fam code = true /\
  AddTaskForm.isOptionSelected
    (AddTaskForm.toggleOption selectedServer selectedOptions fam code false)
    fam' code'
  = AddTaskForm.isOptionSelected selectedOptions fam' code'
    && negb (String.eqb fam' fam && String.eqb code' code).
Proof.
  split.
  - unfold AddTaskForm.toggleOption. rewrite isOptionSelected_app.
    cbn. rewrite !String.eqb_refl. apply orb_true_r.
  - unfold AddTaskForm.toggleOption. rewrite isOptionSelected_filter.
    unfold AddTaskForm.isOptionSelected.
    induction selectedOptions as [|o l IH]; [reflexivity|].
    cbn [existsb]. rewrite IH.
    destruct (String.eqb (AddTaskForm.family o) fam') eqn:Ef;
      destruct (String.eqb (AddTaskForm.optionCode o) code') eqn:Ec;
      cbn [andb orb negb]; rewrite ?andb_false_r; cbn [orb]; try reflexivity.
    apply String.eqb_eq in Ef, Ec. rewrite Ef, Ec.
    destruct (String.eqb fam' fam && String.eqb code' code); cbn [negb andb orb];
      rewrite ?andb_false_r; reflexivity.
Qed.

Lemma filter_idempotent {A : Type} (f : A -> bool) (l : list A) :
  List.filter f (List.filter f l) = List.filter f l.
Proof.
  induction l as [|x l IH]; [reflexivity|]. cbn [List.filter].
  destruct (f x) eqn:E; [|exact IH]. cbn [List.filter]. now rewrite E, IH.
Qed.

Lemma filter_complement {A : Type} (f : A -> bool) (l : list A) :
  List.filter f (List.filter (fun x => negb (f x)) l) = [].
Proof.
  induction l as [|x l IH]; [reflexivity|]. cbn [List.filter].
  destruct (f x) eqn:E; cbn [negb]; [exact IH|].
  cbn [List.filter]. now rewrite E.
Qed.

(** X16: what checking an option does to the list.  The options of the
    other families stay, in their order.  In a family the selected plan marks
    exclusive, the checked option becomes the only one of its family; in any
    other family (the plan is unknown, lists no families, does not list this
    one, or does not mark it exclusive) it is added after the ones the family
    already has, also when it is among them already. *)
Theorem toggleOption_checked_family
    (selectedServer : option AddTaskForm.Plan)
    (selectedOptions : list AddTaskForm.AddonOption) (fam code : string) :
  let inFamily opt := String.eqb (AddTaskForm.family opt) fam in
  let result :=
    AddTaskForm.toggleOption selectedServer selectedOptions fam code true in
  List.filter (fun opt => negb (inFamily opt)) result
    = List.filter (fun opt => negb (inFamily opt)) selectedOptions /\
  List.filter inFamily result
    = if AddTaskForm.isExclusive selectedServer fam
      then [ {| AddTaskForm.family := fam; AddTaskForm.optionCode := code |} ]
      else (List.filter inFamily selectedOptions
            ++ [ {| AddTaskForm.family := fam;
                    AddTaskForm.optionCode := code |} ])%list.
Proof.
  intros inFamily result. subst result. unfold AddTaskForm.toggleOption.
  rewrite !List.filter_app. subst inFamily. cbn [List.filter AddTaskForm.family].
  rewrite String.eqb_refl. cbn [negb].
  destruct (AddTaskForm.isExclusive selectedServer fam).
  - split.
    + rewrite app_nil_r.
      apply (filter_idempotent
               (fun opt => negb (String.eqb (AddTaskForm.family opt) fam))).
    + now rewrite (filter_complement
                     (fun opt => String.eqb (AddTaskForm.family opt) fam)).
  - split; [apply app_nil_r | reflexivity].
Qed.

(** ** The whole of [taskFormSchema] *)

Lemma accepts_components (input : TaskForm.Input) :
  TaskForm.accepts input = true <->
  TaskForm.zStringMin 1 (TaskForm.name input) = [] /\
  TaskForm.zStringMin 1 (TaskForm.planCode input) = [] /\
  TaskForm.zStringMin 1 (TaskForm.datacenter input) = [] /\
  TaskForm.zNumber [TaskForm.int; TaskForm.min 1; TaskForm.max 5]
    (TaskForm.quantity input) = [] /\
  TaskForm.zStringDefault (TaskForm.os input) = [] /\
  TaskForm.zStringDefault (TaskForm.duration input) = [] /\
  TaskForm.zArrayAnyOptional (TaskForm.options input) = [] /\
  TaskForm.maxRetriesSchema (TaskForm.maxRetries input) = [] /\
  TaskForm.taskIntervalSchema (TaskForm.taskInterval input) = [].
Proof.
  unfold TaskForm.accepts, TaskForm.taskFormSchema.
  rewrite <- !app_nil_iff.
  destruct (_ ++ _)%list; split; try reflexivity; discriminate.
Qed.

Lemma zStringMin_nonempty (v : TaskForm.Value) :
  TaskForm.zStringMin 1 v = [] <-> exists s, v = TaskForm.Str s /\ s <> "".
Proof.
  destruct v as [| | b | s | x | |]; cbn;
    try (split; [discriminate | intros (s' & H & _); discriminate H]).
  destruct s as [|c s]; cbn.
  - split; [discriminate|]. intros (s' & H & Hne). inversion H. now subst.
  - split; [|reflexivity]. intros _. eexists. split; [reflexivity|discriminate].
Qed.

Lemma zStringDefault_spec (v : TaskForm.Value) :
  TaskForm.zStringDefault v = [] <->
  v = TaskForm.Undefined \/ exists s, v = TaskForm.Str s.
Proof.
  destruct v as [| | b | s | x | |]; cbn;
    try (split; [discriminate | intros [H | [s' H]]; discriminate H]).
  - split; [now left | reflexivity].
  - split; [right; now exists s | reflexivity].
Qed.

Lemma zArrayAnyOptional_spec (v : TaskForm.Value) :
  TaskForm.zArrayAnyOptional v = [] <->
  v = TaskForm.Undefined \/ v = TaskForm.Array.
Proof.
  destruct v as [| | b | s | x | |]; cbn;
    try (split; [discriminate | intros [H | H]; discriminate H]).
  - split; [now left | reflexivity].
  - split; [now right | reflexivity].
Qed.

(** X17: [taskFormSchema] accepts an object exactly when its name, plan code
    and datacenter are non-empty strings, its quantity is an integer from 1
    to 5, [os] and [duration] are strings or absent, [options] is an array or
    absent, [maxRetries] is an integer from -1 to 100 and [taskInterval] an
    integer from 5 to 600. *)
Theorem taskFormSchema_accepts_exactly (input : TaskForm.Input) :
  let nonEmptyString v := exists s, v = TaskForm.Str s /\ s <> "" in
  let integerIn lo hi v :=
    exists (q : Q) (z : Z),
      v = TaskForm.Num (TaskForm.Finite q) /\ (q == inject_Z z)%Q /\
      (lo <= z <= hi)%Z in
  let stringOrAbsent v := v = TaskForm.Undefined \/ exists s, v = TaskForm.Str s in
  TaskForm.accepts input = true <->
  nonEmptyString (TaskForm.name input) /\
  nonEmptyString (TaskForm.planCode input) /\
  nonEmptyString (TaskForm.datacenter input) /\
  integerIn 1%Z 5%Z (TaskForm.quantity input) /\
  stringOrAbsent (TaskForm.os input) /\
  stringOrAbsent (TaskForm.duration input) /\
  (TaskForm.options input = TaskForm.Undefined \/
   TaskForm.options input = TaskForm.Array) /\
  integerIn (-1)%Z 100%Z (TaskForm.maxRetries input) /\
  integerIn 5%Z 600%Z (TaskForm.taskInterval input).
Proof.
  cbv zeta. rewrite accepts_components.
  unfold TaskForm.maxRetriesSchema, TaskForm.taskIntervalSchema.
  rewrite !zStringMin_nonempty, !zStringDefault_spec, zArrayAnyOptional_spec,
    !zNumber_int_range.
  reflexivity.
Qed.

Lemma append_nonempty (a b : string) : b <> "" -> a +:+ b <> "".
Proof.
  intros Hb H. apply (f_equal String.length) in H.
  rewrite length_append in H. destruct b; [now elim Hb | cbn in H; lia].
Qed.

(** X18: the configurations the server card sends pass the schema of the
    add-task form exactly when the server's plan code and the datacenter id
    are non-empty: the name built for the task is never empty, and the
    card's fixed quantity 1, unlimited retries (-1) and 60 s interval are
    within the schema's ranges. *)
Theorem card_config_passes_form_schema
    (server : FormattedServer) (frontendOptions : list SelectedOption)
    (datacenterId : string) :
  TaskForm.accepts
    (serverConfigAsInput (serverConfigFor server frontendOptions datacenterId))
    = true
  <-> planCode server <> "" /\ datacenterId <> "".
Proof.
  rewrite accepts_components.
  cbn [serverConfigAsInput serverConfigFor TaskForm.name TaskForm.planCode
       TaskForm.datacenter TaskForm.quantity TaskForm.os TaskForm.duration
       TaskForm.options TaskForm.maxRetries TaskForm.taskInterval
       cfgName cfgPlanCode cfgDatacenter cfgQuantity cfgOs cfgDuration
       cfgMaxRetries cfgTaskInterval].
  rewrite !zStringMin_nonempty.
  assert (Hname : name server +:+ " (" +:+ datacenterId +:+ ")" <> "").
  { apply append_nonempty. discriminate. }
  split.
  - intros (_ & (p & Hp & Hpne) & (d & Hd & Hdne) & _).
    inversion Hp. inversion Hd. now subst.
  - intros [Hp Hd]. split; [eexists; split; [reflexivity | exact Hname]|].
    split; [now exists (planCode server)|].
    split; [now exists datacenterId|].
    repeat split; reflexivity.
Qed.

(** ** The recent orders *)

Section RecentOrdersProperties.

Variable getTime : string -> Z.

Let time (o : RecentOrders.OrderHistory) : Z :=
  getTime (RecentOrders.orderTime o).

(** [a] is shown before [b]: [a] is not older. *)
Let notOlder (a b : RecentOrders.OrderHistory) : Prop := (time b <= time a)%Z.

Lemma insertOrder_Permutation (a : RecentOrders.OrderHistory)
    (l : list RecentOrders.OrderHistory) :
  Permutation (a :: l) (RecentOrders.insertOrder getTime a l).
Proof.
  induction l as [|b l IH]; cbn [RecentOrders.insertOrder]; [reflexivity|].
  destruct (RecentOrders.compareOrders getTime a b <=? 0)%Z; [reflexivity|].
  rewrite perm_swap. now constructor.
Qed.

Lemma sortOrders_Permutation (orders : list RecentOrders.OrderHistory) :
  Permutation orders (RecentOrders.sortOrders getTime orders).
Proof.
  induction orders as [|a l IH]; [reflexivity|].
  cbn [RecentOrders.sortOrders fold_right].
  fold (RecentOrders.sortOrders getTime l).
  rewrite <- insertOrder_Permutation. now constructor.
Qed.

Lemma insertOrder_sorted (a : RecentOrders.OrderHistory)
    (l : list RecentOrders.OrderHistory) :
  StronglySorted notOlder l ->
  StronglySorted notOlder (RecentOrders.insertOrder getTime a l).
Proof.
  induction 1 as [|b l Hs IH Hb]; cbn [RecentOrders.insertOrder].
  - repeat constructor.
  - unfold RecentOrders.compareOrders. fold (time a) (time b).
    destruct (time b - time a <=? 0)%Z eqn:E.
    + apply Z.leb_le in E. constructor; [now constructor|].
      constructor; [unfold notOlder; lia|].
      rewrite List.Forall_forall in *. intros x Hx. specialize (Hb x Hx).
      unfold notOlder in *. lia.
    + apply Z.leb_gt in E. constructor; [exact IH|].
      rewrite List.Forall_forall in *. intros x Hx.
      apply (Permutation_in _ (Permutation_sym (insertOrder_Permutation a l)))
        in Hx.
      destruct Hx as [<- | Hx]; [unfold notOlder; lia | now apply Hb].
Qed.

Lemma sortOrders_sorted (orders : list RecentOrders.OrderHistory) :
  StronglySorted notOlder (RecentOrders.sortOrders getTime orders).
Proof.
  induction orders as [|a l IH]; [constructor|].
  cbn [RecentOrders.sortOrders fold_right]. now apply insertOrder_sorted.
Qed.

Lemma insertOrder_filter (t : Z) (a : RecentOrders.OrderHistory)
    (l : list RecentOrders.OrderHistory) :
  List.filter (fun o => (time o =? t)%Z) (RecentOrders.insertOrder getTime a l)
  = List.filter (fun o => (time o =? t)%Z) (a :: l).
Proof.
  induction l as [|b l IH]; cbn [RecentOrders.insertOrder]; [reflexivity|].
  unfold RecentOrders.compareOrders. fold (time a) (time b).
  destruct (time b - time a <=? 0)%Z eqn:E; [reflexivity|].
  apply Z.leb_gt in E. cbn [List.filter] in *. rewrite IH.
  destruct (time a =? t)%Z eqn:Ea; [|reflexivity].
  apply Z.eqb_eq in Ea.
  assert (Eb : (time b =? t)%Z = false) by (apply Z.eqb_neq; lia).
  now rewrite Eb.
Qed.

Lemma sorted_app_dominates (l1 l2 : list RecentOrders.OrderHistory) :
  StronglySorted notOlder (l1 ++ l2) ->
  StronglySorted notOlder l1 /\
  forall a b, In a l1 -> In b l2 -> notOlder a b.
Proof.
  induction l1 as [|x l1 IH]; cbn; intros H.
  - split; [constructor | intros a b []].
  - inversion H as [|? ? Hs Hx]; subst. destruct (IH Hs) as [Hs1 Hdom].
    rewrite List.Forall_forall in Hx. split.
    + constructor; [exact Hs1|]. rewrite List.Forall_forall. intros y Hy.
      apply Hx, in_app_iff. now left.
    + intros a b [<- | Ha] Hb; [apply Hx, in_app_iff; now right|].
      now apply Hdom.
Qed.

(** X19: the dashboard shows at most five orders, all of them orders of the
    list, newest first; when there are more than five, no order left out is
    newer than an order shown. *)
Theorem recentOrders_are_the_newest (orders : list RecentOrders.OrderHistory) :
  let recent := RecentOrders.recentOrders getTime orders in
  length recent = Nat.min 5 (length orders) /\
  StronglySorted
    (fun a b => (getTime (RecentOrders.orderTime b)
                 <= getTime (RecentOrders.orderTime a))%Z) recent /\
  exists rest,
    Permutation orders (recent ++ rest) /\
    forall shown skipped,
      In shown recent -> In skipped rest ->
      (getTime (RecentOrders.orderTime skipped)
       <= getTime (RecentOrders.orderTime shown))%Z.
Proof.
  intros recent. subst recent. unfold RecentOrders.recentOrders.
  pose proof (sortOrders_Permutation orders) as Hperm.
  pose proof (sortOrders_sorted orders) as Hsorted.
  rewrite <- (firstn_skipn 5 (RecentOrders.sortOrders getTime orders))
    in Hsorted.
  destruct (sorted_app_dominates _ _ Hsorted) as [Hs Hdom].
  split; [|split].
  - rewrite length_firstn. now rewrite (Permutation_length Hperm).
  - exact Hs.
  - exists (skipn 5 (RecentOrders.sortOrders getTime orders)).
    split; [now rewrite firstn_skipn | exact Hdom].
Qed.

(** X20: the order in which the orders are arranged before the cut: a
    rearrangement of the list, newest first, in which orders with the same
    time keep the order they had in the list. *)
Theorem sortOrders_is_stable (orders : list RecentOrders.OrderHistory) :
  Permutation orders (RecentOrders.sortOrders getTime orders) /\
  StronglySorted
    (fun a b => (getTime (RecentOrders.orderTime b)
                 <= getTime (RecentOrders.orderTime a))%Z)
    (RecentOrders.sortOrders getTime orders) /\
  forall t : Z,
    List.filter (fun o => (getTime (RecentOrders.orderTime o) =? t)%Z)
      (RecentOrders.sortOrders getTime orders)
    = List.filter (fun o => (getTime (RecentOrders.orderTime o) =? t)%Z) orders.
Proof.
  split; [apply sortOrders_Permutation|]. split; [apply sortOrders_sorted|].
  intros t. induction orders as [|a l IH]; [reflexivity|].
  cbn [RecentOrders.sortOrders fold_right].
  fold (RecentOrders.sortOrders getTime l).
  rewrite (insertOrder_filter t a). cbn [List.filter]. fold (time a).
  unfold time in *. now rewrite IH.
Qed.

End RecentOrdersProperties.
